(** * doi2paper: the hybrid downloader [download_hybrid.py]

    A shallow embedding of the progress ledger ([DownloadProgress]), of the
    payload capturer ([download_with_browser]) and of the body of the
    per-identifier loop of [main], followed by the properties established
    about them.

    Modelling conventions.
    - A Python [str] is a Rocq [string], one character of the Rocq string per
      character of the Python string; [lower] acts on the ASCII letters.
    - A call that may raise is a computation in [M], a state monad whose
      results are [Returns a] or [Raises e].  The state survives a raised
      exception, as the attributes and local variables of the Python program
      do.  [exn] stands for the subclasses of [Exception]; an operator
      interrupt ([KeyboardInterrupt]) is asynchronous and is not modelled.
    - What the outside world answers (the browser, the clock, the disk) is
      read from a script record, one field per call site.
    - Console output ([print]) and [time.sleep] have no counterpart. *)

From Stdlib Require Import List String Ascii ZArith Bool Arith Lia Permutation.
Import ListNotations.
Open Scope string_scope.

(** ** Exceptions and the monad of fallible, stateful calls *)

Inductive exn : Type :=
| OSError
| JSONDecodeError
| TypeError
| ValueError
| NameError
| PlaywrightError
| PlaywrightTimeout.

Inductive result (A : Type) : Type :=
| Returns (a : A)
| Raises (e : exn).
Arguments Returns {A} a.
Arguments Raises {A} e.

Definition M (S A : Type) : Type := S -> result A * S.

Definition ret {S A} (a : A) : M S A := fun s => (Returns a, s).

Definition raise {S A} (e : exn) : M S A := fun s => (Raises e, s).

Definition bind {S A B} (m : M S A) (k : A -> M S B) : M S B :=
  fun s =>
    match m s with
    | (Returns a, s') => k a s'
    | (Raises e, s') => (Raises e, s')
    end.

(** [try: m except Exception as e: h e] *)
Definition try_except {S A} (m : M S A) (h : exn -> M S A) : M S A :=
  fun s =>
    match m s with
    | (Returns a, s') => (Returns a, s')
    | (Raises e, s') => h e s'
    end.

Definition get {S} : M S S := fun s => (Returns s, s).

Definition modify {S} (f : S -> S) : M S unit := fun s => (Returns tt, f s).

(** The answer of the outside world to one call. *)
Definition answer {S A} (r : result A) : M S A := fun s => (r, s).

Declare Scope py_scope.
Delimit Scope py_scope with py.
Notation "x <- m ;; k" := (bind m (fun x => k))
  (at level 61, m at next level, right associativity) : py_scope.
Notation "m ;; k" := (bind m (fun _ => k))
  (at level 61, right associativity) : py_scope.
Open Scope py_scope.

(** [when b m] is [if b: m]. *)
Definition when {S} (b : bool) (m : M S unit) : M S unit :=
  if b then m else ret tt.

(** [m] returns, whatever state it is run from. *)
Definition total {S A} (m : M S A) : Prop :=
  forall s, exists a, fst (m s) = Returns a.

(** ** Strings *)

(** [str.lower] on the ASCII letters. *)
Definition lower_char (c : ascii) : ascii :=
  let n := nat_of_ascii c in
  if (65 <=? n)%nat && (n <=? 90)%nat then ascii_of_nat (n + 32) else c.

Fixpoint lower (s : string) : string :=
  match s with
  | EmptyString => EmptyString
  | String c r => String (lower_char c) (lower r)
  end.

(** [needle in hay] for two strings. *)
Fixpoint contains (needle hay : string) : bool :=
  if prefix needle hay then true
  else match hay with
       | EmptyString => false
       | String _ r => contains needle r
       end.

(** ** The progress ledger: class [DownloadProgress] *)

Module Ledger.

(** [self.data], a dict with the keys [downloaded], [failed], [last_update];
    the two lists hold identifiers ([str]). *)
Record data : Type := mkData {
  downloaded : list string;
  failed : list string;
  last_update : option string
}.

(** [{"downloaded": [], "failed": [], "last_update": None}] *)
Definition empty : data := mkData [] [] None.

(** [x in l] for a list of strings. *)
Definition py_in (x : string) (l : list string) : bool :=
  existsb (String.eqb x) l.

(** [l.remove(x)]: drops the first element equal to [x], [ValueError] when
    there is none. *)
Fixpoint list_remove (x : string) (l : list string) : result (list string) :=
  match l with
  | [] => Raises ValueError
  | y :: r =>
      if String.eqb x y then Returns r
      else match list_remove x r with
           | Returns r' => Returns (y :: r')
           | Raises e => Raises e
           end
  end.

(** The list once the first element equal to [x], if any, is dropped. *)
Fixpoint without_first (x : string) (l : list string) : list string :=
  match l with
  | [] => []
  | y :: r => if String.eqb x y then r else y :: without_first x r
  end.

Definition set_downloaded (l : list string) (d : data) : data :=
  mkData l (failed d) (last_update d).

Definition set_failed (l : list string) (d : data) : data :=
  mkData (downloaded d) l (last_update d).

Definition set_last_update (t : string) (d : data) : data :=
  mkData (downloaded d) (failed d) (Some t).

(** [save]: [now] is [datetime.now().isoformat()], [disk] is what opening the
    progress file for writing and dumping the data into it yield.  The
    timestamp is stored before the file is opened. *)
Definition save (now : string) (disk : result unit) : M data unit :=
  modify (set_last_update now) ;;
  answer disk.

Definition is_processed (doi : string) (d : data) : bool :=
  py_in doi (downloaded d) || py_in doi (failed d).

Definition mark_downloaded (now : string) (disk : result unit) (doi : string)
  : M data unit :=
  d <- get ;;
  when (negb (py_in doi (downloaded d)))
       (modify (set_downloaded (downloaded d ++ [doi]))) ;;
  d <- get ;;
  when (py_in doi (failed d))
       (l <- answer (list_remove doi (failed d)) ;;
        modify (set_failed l)) ;;
  save now disk.

Definition mark_failed (now : string) (disk : result unit) (doi : string)
  : M data unit :=
  d <- get ;;
  when (negb (py_in doi (failed d)) && negb (py_in doi (downloaded d)))
       (modify (set_failed (failed d ++ [doi]))) ;;
  save now disk.

Definition get_stats (d : data) : nat * nat :=
  (List.length (downloaded d), List.length (failed d)).

(** A call on the ledger, with the clock reading and the answer of the disk
    at its [save]. *)
Inductive method : Type :=
| MarkDownloaded
| MarkFailed.

Record call : Type := mkCall {
  c_method : method;
  c_doi : string;
  c_now : string;
  c_disk : result unit
}.

Definition perform (c : call) : M data unit :=
  match c_method c with
  | MarkDownloaded => mark_downloaded (c_now c) (c_disk c) (c_doi c)
  | MarkFailed => mark_failed (c_now c) (c_disk c) (c_doi c)
  end.

(** The ledger object after a sequence of calls; a call whose [save] raised
    has still changed the object. *)
Definition after_calls (cs : list call) (d : data) : data :=
  fold_left (fun d c => snd (perform c d)) cs d.

(** The two lists are used as sets: no identifier twice in a list, none in
    both lists. *)
Definition well_formed (d : data) : Prop :=
  NoDup (downloaded d) /\ NoDup (failed d) /\
  forall x, In x (downloaded d) -> ~ In x (failed d).

End Ledger.

(** ** Loading the persisted ledger: [DownloadProgress.__init__] and [load] *)

Module Persist.

#[local] Set Warnings "-register-all".

(** What [json.load] can return.  A number keeps its literal: the ledger
    never computes with one. *)
Inductive json : Type :=
| JNull
| JBool (b : bool)
| JNum (literal : string)
| JStr (s : string)
| JArr (items : list json)
| JObj (members : list (string * json)).

(** [self.data] while it is loaded: the three keys the class reads, holding
    whatever the file put there.  Other keys that [update] may add are
    never read by a method and are left out. *)
Record raw : Type := mkRaw {
  r_downloaded : json;
  r_failed : json;
  r_last_update : json
}.

Definition defaults : raw := mkRaw (JArr []) (JArr []) JNull.

(** [self.data[k] = v] *)
Definition set_key (k : string) (v : json) (r : raw) : raw :=
  if String.eqb k "downloaded" then mkRaw v (r_failed r) (r_last_update r)
  else if String.eqb k "failed" then mkRaw (r_downloaded r) v (r_last_update r)
  else if String.eqb k "last_update" then mkRaw (r_downloaded r) (r_failed r) v
  else r.

(** The keys of a dict built from [members], each once, in the order of
    their first occurrence. *)
Fixpoint dict_keys (seen : list string) (members : list (string * json))
  : list string :=
  match members with
  | [] => []
  | (k, _) :: rest =>
      if existsb (String.eqb k) seen then dict_keys seen rest
      else k :: dict_keys (k :: seen) rest
  end.

Fixpoint chars (s : string) : list string :=
  match s with
  | EmptyString => []
  | String c r => String c EmptyString :: chars r
  end.

(** [len(v)] *)
Definition py_len (v : json) : result nat :=
  match v with
  | JStr s => Returns (String.length s)
  | JArr items => Returns (List.length items)
  | JObj members => Returns (List.length (dict_keys [] members))
  | JNull | JBool _ | JNum _ => Raises TypeError
  end.

(** One element of an iterable given to [dict.update]: it is read as a
    sequence, which must have length two. *)
Definition as_sequence (item : json) : result (list json) :=
  match item with
  | JArr xs => Returns xs
  | JStr s => Returns (map JStr (chars s))
  | JObj members => Returns (map JStr (dict_keys [] members))
  | JNull | JBool _ | JNum _ => Raises TypeError
  end.

Definition key_value (item : json) : result (json * json) :=
  match as_sequence item with
  | Returns [k; v] => Returns (k, v)
  | Returns _ => Raises ValueError
  | Raises e => Raises e
  end.

(** [self.data[k] = v] for a key of any type: lists and dicts are not
    hashable, and a key that is not a string is none of the three. *)
Definition set_item (k v : json) : M raw unit :=
  match k with
  | JStr s => modify (set_key s v)
  | JArr _ | JObj _ => raise TypeError
  | JNull | JBool _ | JNum _ => ret tt
  end.

Fixpoint merge_pairs (items : list json) : M raw unit :=
  match items with
  | [] => ret tt
  | item :: rest =>
      kv <- answer (key_value item) ;;
      set_item (fst kv) (snd kv) ;;
      merge_pairs rest
  end.

Fixpoint merge_members (members : list (string * json)) : M raw unit :=
  match members with
  | [] => ret tt
  | (k, v) :: rest => modify (set_key k v) ;; merge_members rest
  end.

(** [self.data.update(v)]: a dict is merged key by key; anything else is
    iterated as a sequence of pairs, each stored before the next is read. *)
Definition dict_update (v : json) : M raw unit :=
  match v with
  | JObj members => merge_members members
  | JArr items => merge_pairs items
  | JStr s => merge_pairs (map JStr (chars s))
  | JNull | JBool _ | JNum _ => raise TypeError
  end.

(** The progress file at start-up: absent, or present, [contents] being
    what opening it and [json.load] yield. *)
Inductive progress_file : Type :=
| Absent
| Present (contents : result json).

Definition load (pf : progress_file) : M raw unit :=
  match pf with
  | Absent => ret tt
  | Present contents =>
      try_except
        (v <- answer contents ;;
         dict_update v ;;
         r <- get ;;
         _ <- answer (py_len (r_downloaded r)) ;;
         _ <- answer (py_len (r_failed r)) ;;
         ret tt)
        (fun _ => ret tt)
  end.

(** [DownloadProgress(progress_file)] *)
Definition init (pf : progress_file) : result unit * raw :=
  load pf defaults.

(** The loaded dict seen as a ledger, when its lists hold strings. *)
Fixpoint strings_of (items : list json) : option (list string) :=
  match items with
  | [] => Some []
  | JStr s :: rest => option_map (cons s) (strings_of rest)
  | _ :: _ => None
  end.

Definition timestamp_of (v : json) : option (option string) :=
  match v with
  | JNull => Some None
  | JStr s => Some (Some s)
  | _ => None
  end.

Definition as_ledger (r : raw) : option Ledger.data :=
  match r_downloaded r, r_failed r, timestamp_of (r_last_update r) with
  | JArr ds, JArr fs, Some t =>
      match strings_of ds, strings_of fs with
      | Some d, Some f => Some (Ledger.mkData d f t)
      | _, _ => None
      end
  | _, _, _ => None
  end.

End Persist.

(** ** The browser session, the payload capturer and the orchestrator *)

Module Hybrid.

Definition SCIHUB_MIRRORS : list string :=
  ["https://sci-hub.st"; "https://sci-hub.ru"].

(** The CSS selectors the program queries. *)
Inductive selector : Type :=
| SaveButton      (** a button whose [onclick] holds [location.href] *)
| PdfLink         (** a hyperlink whose [href] holds [.pdf] *)
| EmbedPdf        (** an [embed] of type [application/pdf] *)
| IframePdf       (** [iframe#pdf] *)
| IframePdfOrSrc. (** [iframe#pdf], or an [iframe] whose [src] holds [.pdf] *)

(** The calls the program makes on the outside world, in order. *)
Inductive event : Type :=
| EvNewPage                     (** [context.new_page()] *)
| EvGoto (url : string)         (** [page.goto(url, ...)] *)
| EvTitle                       (** [page.title()] *)
| EvQuery (sel : selector)      (** [page.query_selector(sel)] *)
| EvClick (sel : selector)      (** a click awaited by [expect_download] *)
| EvGetSrc (sel : selector)     (** [element.get_attribute('src')] *)
| EvSaveAs                      (** [download.save_as(pdf_path)] *)
| EvClosePage                   (** [page.close()] *)
| EvCapture                     (** [download_with_browser] is entered *)
| EvNewTab                      (** [page.context.new_page()] *)
| EvTabGoto (url : string)      (** [new_page.goto] awaited by [expect_download] *)
| EvTabClose                    (** [new_page.close()] *)
| EvFrameLocator                (** [page.frame_locator('#pdf').first] *)
| EvMarkDownloaded (doi : string)
| EvMarkFailed (doi : string)
| EvLog (success : bool) (doi : string). (** [log_message] *)

(** The state the loop body of [main] works on. *)
Record machine : Type := mkMachine {
  pdf_file : option Z;        (** the target file: its size, [None] if absent *)
  trace : list event;
  downloaded : bool;          (** the local variable [downloaded] *)
  page : bool;                (** is the local variable [page] bound *)
  progress : Ledger.data      (** [progress.data] *)
}.

Definition log (e : event) (s : machine) : machine :=
  mkMachine (pdf_file s) (trace s ++ [e]) (downloaded s) (page s) (progress s).

Definition set_file (f : option Z) (s : machine) : machine :=
  mkMachine f (trace s) (downloaded s) (page s) (progress s).

Definition set_downloaded (b : bool) (s : machine) : machine :=
  mkMachine (pdf_file s) (trace s) b (page s) (progress s).

Definition set_page (b : bool) (s : machine) : machine :=
  mkMachine (pdf_file s) (trace s) (downloaded s) b (progress s).

Definition set_progress (d : Ledger.data) (s : machine) : machine :=
  mkMachine (pdf_file s) (trace s) (downloaded s) (page s) d.

(** A call on the outside world: it is recorded, then answered. *)
Definition call {A} (e : event) (r : result A) : M machine A :=
  modify (log e) ;; answer r.

(** [pdf_path.exists() and pdf_path.stat().st_size > 1000] *)
Definition valid_pdf (f : option Z) : bool :=
  match f with
  | Some size => (1000 <? size)%Z
  | None => false
  end.

Definition file_valid : M machine bool :=
  s <- get ;; ret (valid_pdf (pdf_file s)).

(** [download.save_as(pdf_path)]: what the call yields and what is at the
    target path once it is over. *)
Record save_answer : Type := mkSave {
  sv_result : result unit;
  sv_file : option Z
}.

Definition save_as (a : save_answer) : M machine unit :=
  modify (log EvSaveAs) ;;
  modify (set_file (sv_file a)) ;;
  answer (sv_result a).

(** *** [download_with_browser] *)

(** The answers of the page during one capture.  A [*_download] field
    stands for the click (or the navigation) inside [expect_download], the
    wait for the download and the read of [download_info.value]. *)
Record capture_script : Type := mkCapture {
  cs_button : result bool;
  cs_button_download : result unit;
  cs_button_save : save_answer;
  cs_link : result bool;
  cs_link_download : result unit;
  cs_link_save : save_answer;
  cs_embed : result bool;
  cs_embed_src : result (option string);
  cs_iframe : result bool;
  cs_iframe_src : result (option string);
  cs_origin : result (string * string); (** scheme and netloc of [page.url] *)
  cs_new_tab : result unit;
  cs_tab_download : result unit;
  cs_tab_save : save_answer;
  cs_tab_close : result unit;
  cs_tab_close_again : result unit;
  cs_frame_locator : result unit
}.

(** Methods 1 and 2: find the element, click it, save the download, check
    the file.  The result tells whether the function has returned [True].
    [click_body] is the [try] block, [click_method] the whole statement. *)
Definition click_body (sel : selector) (found : result bool)
    (download : result unit) (save : save_answer) : M machine bool :=
  element <- call (EvQuery sel) found ;;
  if element then
    call (EvClick sel) download ;;
    save_as save ;;
    file_valid
  else ret false.

Definition click_method (sel : selector) (found : result bool)
    (download : result unit) (save : save_answer) : M machine bool :=
  try_except (click_body sel found download save) (fun _ => ret false).

Definition truthy (url : option string) : bool :=
  match url with
  | Some (String _ _) => true
  | _ => false
  end.

Definition text (url : option string) : string :=
  match url with
  | Some u => u
  | None => EmptyString
  end.

(** The [src] of the embed, else of the iframe. *)
Definition find_pdf_url (cs : capture_script) : M machine (option string) :=
  embed <- call (EvQuery EmbedPdf) (cs_embed cs) ;;
  pdf_url <- (if embed then call (EvGetSrc EmbedPdf) (cs_embed_src cs)
              else ret None) ;;
  if truthy pdf_url then ret pdf_url
  else
    iframe <- call (EvQuery IframePdfOrSrc) (cs_iframe cs) ;;
    if iframe then call (EvGetSrc IframePdfOrSrc) (cs_iframe_src cs)
    else ret pdf_url.

Definition resolve_url (cs : capture_script) (pdf_url : string)
  : M machine string :=
  if prefix "//" pdf_url then ret ("https:" ++ pdf_url)
  else if prefix "/" pdf_url then
    parsed <- answer (cs_origin cs) ;;
    ret (fst parsed ++ "://" ++ snd parsed ++ pdf_url)
  else ret pdf_url.

(** Method 3: open the [src] of the embed or iframe in a new tab. *)
Definition navigate_body (cs : capture_script) : M machine bool :=
  pdf_url <- find_pdf_url cs ;;
  if truthy pdf_url then
    target <- resolve_url cs (text pdf_url) ;;
    call EvNewTab (cs_new_tab cs) ;;
    try_except
      (call (EvTabGoto target) (cs_tab_download cs) ;;
       save_as (cs_tab_save cs) ;;
       call EvTabClose (cs_tab_close cs) ;;
       file_valid)
      (fun _ =>
         call EvTabClose (cs_tab_close_again cs) ;;
         try_except (call EvFrameLocator (cs_frame_locator cs))
                    (fun _ => ret tt) ;;
         ret false)
  else ret false.

Definition navigate_method (cs : capture_script) : M machine bool :=
  try_except (navigate_body cs) (fun _ => ret false).

Definition button_body (cs : capture_script) : M machine bool :=
  click_body SaveButton (cs_button cs) (cs_button_download cs)
             (cs_button_save cs).

Definition button_method (cs : capture_script) : M machine bool :=
  try_except (button_body cs) (fun _ => ret false).

Definition link_body (cs : capture_script) : M machine bool :=
  click_body PdfLink (cs_link cs) (cs_link_download cs) (cs_link_save cs).

Definition link_method (cs : capture_script) : M machine bool :=
  try_except (link_body cs) (fun _ => ret false).

Definition download_with_browser (cs : capture_script) : M machine bool :=
  modify (log EvCapture) ;;
  done <- button_method cs ;;
  if done then ret true
  else
    done <- link_method cs ;;
    if done then ret true
    else
      done <- navigate_method cs ;;
      if done then ret true else ret false.

(** *** The wait loop of [main] *)

(** What the page shows at one poll. *)
Record snapshot : Type := mkSnapshot {
  sn_title : result string;
  sn_embed : result bool;
  sn_iframe : result bool;
  sn_link : result bool;
  sn_button : result bool
}.

(** The four branches of the loop body: the title holds [robot]
    ([continue]), it holds [not available] ([break]), the page has content
    ([pdf_ready = True; break]), none of these (sleep and poll again). *)
Inductive page_state : Type :=
| CHALLENGE
| UNAVAILABLE
| READY
| LOADING.

Definition has_content (sn : snapshot) : M machine bool :=
  embed <- call (EvQuery EmbedPdf) (sn_embed sn) ;;
  if embed then ret true
  else
    iframe <- call (EvQuery IframePdf) (sn_iframe sn) ;;
    if iframe then ret true
    else
      link <- call (EvQuery PdfLink) (sn_link sn) ;;
      if link then ret true
      else call (EvQuery SaveButton) (sn_button sn).

Definition poll (sn : snapshot) : M machine page_state :=
  title <- call EvTitle (sn_title sn) ;;
  if contains "robot" (lower title) then ret CHALLENGE
  else if contains "not available" (lower title) then ret UNAVAILABLE
  else
    content <- has_content sn ;;
    if content then ret READY else ret LOADING.

(** [while time.time() - wait_start < MAX_WAIT_TIME]: [polls] holds the
    snapshots of the polls that begin before the budget is spent.  The
    result is [pdf_ready]. *)
Fixpoint wait_for_pdf (polls : list snapshot) : M machine bool :=
  match polls with
  | [] => ret false
  | sn :: rest =>
      st <- poll sn ;;
      match st with
      | CHALLENGE => wait_for_pdf rest
      | UNAVAILABLE => ret false
      | READY => ret true
      | LOADING => wait_for_pdf rest
      end
  end.

(** *** One identifier: the body of the [for] loop of [main] *)

(** The answers of the browser for one mirror. *)
Record page_script : Type := mkPage {
  ps_new_page : result unit;
  ps_goto : result unit;
  ps_polls : list snapshot;
  ps_capture : capture_script;
  ps_close : result unit;
  ps_close_again : result unit   (** [page.close()] in the handler *)
}.

(** The outside world while one identifier is processed. *)
Record world : Type := mkWorld {
  w_browse : string -> page_script;  (** by URL *)
  w_now : string;                    (** the clock at [save] *)
  w_disk : result unit;              (** the write of the progress file *)
  w_log : result unit                (** the append to the log file *)
}.

(** One mirror; the result tells whether the mirror loop is left. *)
Definition attempt (w : world) (url : string) : M machine bool :=
  let ps := w_browse w url in
  try_except
    (call EvNewPage (ps_new_page ps) ;;
     modify (set_page true) ;;
     call (EvGoto url) (ps_goto ps) ;;
     pdf_ready <- wait_for_pdf (ps_polls ps) ;;
     when pdf_ready
          (captured <- download_with_browser (ps_capture ps) ;;
           when captured (modify (set_downloaded true))) ;;
     call EvClosePage (ps_close ps) ;;
     s <- get ;;
     ret (downloaded s))
    (fun _ =>
       try_except
         (s <- get ;;
          if page s then call EvClosePage (ps_close_again ps)
          else raise NameError)
         (fun _ => ret tt) ;;
       ret false).

Fixpoint mirror_loop (w : world) (doi : string) (mirrors : list string)
  : M machine unit :=
  match mirrors with
  | [] => ret tt
  | mirror :: rest =>
      leave <- attempt w (mirror ++ "/" ++ doi) ;;
      if leave then ret tt else mirror_loop w doi rest
  end.

Definition on_progress {A} (m : M Ledger.data A) : M machine A :=
  fun s => let (r, d) := m (progress s) in (r, set_progress d s).

Definition mark_downloaded (w : world) (doi : string) : M machine unit :=
  modify (log (EvMarkDownloaded doi)) ;;
  on_progress (Ledger.mark_downloaded (w_now w) (w_disk w) doi).

Definition mark_failed (w : world) (doi : string) : M machine unit :=
  modify (log (EvMarkFailed doi)) ;;
  on_progress (Ledger.mark_failed (w_now w) (w_disk w) doi).

Definition process_doi (w : world) (mirrors : list string) (doi : string)
  : M machine unit :=
  present <- file_valid ;;
  if present then mark_downloaded w doi
  else
    modify (set_downloaded false) ;;
    mirror_loop w doi mirrors ;;
    s <- get ;;
    if downloaded s then
      mark_downloaded w doi ;;
      call (EvLog true doi) (w_log w)
    else
      mark_failed w doi ;;
      call (EvLog false doi) (w_log w).

(** *** Reading a trace *)

Definition is_mark (e : event) : bool :=
  match e with
  | EvMarkDownloaded _ | EvMarkFailed _ => true
  | _ => false
  end.

(** [s'] is [s] after the calls [tr]. *)
Definition since (s s' : machine) (tr : list event) : Prop :=
  trace s' = (trace s ++ tr)%list.

(** From [s] to [s'] only the browser and the target file were touched:
    no call on the ledger, and the ledger is as it was. *)
Definition browsing (s s' : machine) : Prop :=
  exists tr, since s s' tr /\ existsb is_mark tr = false /\
             progress s' = progress s.

(** The same for a computation, from whatever state it is run. *)
Definition browses {A} (m : M machine A) : Prop :=
  forall s, browsing s (snd (m s)).

(** The first call of [m] is [e]. *)
Definition opens_with {A} (e : event) (m : M machine A) : Prop :=
  forall s, exists tr, since s (snd (m s)) (e :: tr).

(** [m] returns [True] only on a target file that passes the size check. *)
Definition sound (m : M machine bool) : Prop :=
  forall s, fst (m s) = Returns true ->
            valid_pdf (pdf_file (snd (m s))) = true.

(** [m] returns [True] only when [Q] holds. *)
Definition only_if (Q : Prop) (m : M machine bool) : Prop :=
  forall s, fst (m s) = Returns true -> Q.

(** [m], when it returns, returns the value of [downloaded]. *)
Definition returns_flag (m : M machine bool) : Prop :=
  forall s b s1, m s = (Returns b, s1) -> b = downloaded s1.

End Hybrid.


(** ** Concrete runs *)

Module Scenario.

Import Hybrid.

Definition doi : string := "10.1/a".
Definition url1 : string := "https://sci-hub.st/10.1/a".
Definition url2 : string := "https://sci-hub.ru/10.1/a".

(** A machine before the identifier is processed: the target file as
    given, nothing recorded yet, an empty ledger. *)
Definition start (file : option Z) : machine :=
  mkMachine file [] false false Ledger.empty.

Definition saved (size : Z) : save_answer := mkSave (Returns tt) (Some size).

Definition nothing_saved : save_answer := mkSave (Raises PlaywrightError) None.

(** A page on which no selector matches. *)
Definition bare : capture_script :=
  mkCapture (Returns false) (Raises PlaywrightTimeout) nothing_saved
            (Returns false) (Raises PlaywrightTimeout) nothing_saved
            (Returns false) (Returns None)
            (Returns false) (Returns None)
            (Returns ("https", "sci-hub.st"))
            (Returns tt) (Raises PlaywrightTimeout) nothing_saved
            (Returns tt) (Returns tt) (Returns tt).

(** The save button works and the file saved has [size] bytes. *)
Definition button_saves (size : Z) : capture_script :=
  mkCapture (Returns true) (Returns tt) (saved size)
            (Returns false) (Raises PlaywrightTimeout) nothing_saved
            (Returns false) (Returns None)
            (Returns false) (Returns None)
            (Returns ("https", "sci-hub.st"))
            (Returns tt) (Raises PlaywrightTimeout) nothing_saved
            (Returns tt) (Returns tt) (Returns tt).

(** The query for the save button raises, the PDF link times out, the
    embed has a root-relative [src] and the new tab saves [size] bytes. *)
Definition only_tab_saves (size : Z) : capture_script :=
  mkCapture (Raises PlaywrightError) (Returns tt) nothing_saved
            (Returns true) (Raises PlaywrightTimeout) nothing_saved
            (Returns true) (Returns (Some "/pdf/a.pdf"))
            (Returns false) (Returns None)
            (Returns ("https", "sci-hub.st"))
            (Returns tt) (Returns tt) (saved size)
            (Returns tt) (Returns tt) (Returns tt).

(** Every call of every method raises. *)
Definition all_raise : capture_script :=
  mkCapture (Raises PlaywrightError) (Raises PlaywrightTimeout) nothing_saved
            (Raises PlaywrightError) (Raises PlaywrightTimeout) nothing_saved
            (Raises PlaywrightError) (Raises PlaywrightError)
            (Raises PlaywrightError) (Raises PlaywrightError)
            (Raises ValueError)
            (Raises PlaywrightError) (Raises PlaywrightTimeout) nothing_saved
            (Raises PlaywrightError) (Raises PlaywrightError)
            (Raises PlaywrightError).

(** A poll that shows the embedded PDF under the given title. *)
Definition shows_pdf (title : string) : snapshot :=
  mkSnapshot (Returns title) (Returns true) (Returns true) (Returns true)
             (Returns true).

Definition shows_nothing (title : string) : snapshot :=
  mkSnapshot (Returns title) (Returns false) (Returns false) (Returns false)
             (Returns false).

(** A mirror that answers but never shows anything before the budget is
    spent. *)
Definition silent_page : page_script :=
  mkPage (Returns tt) (Returns tt) [shows_nothing "Sci-Hub"] bare
         (Returns tt) (Returns tt).

(** A mirror that says the paper is not available. *)
Definition unavailable_page : page_script :=
  mkPage (Returns tt) (Returns tt) [shows_nothing "Paper Not Available"] bare
         (Returns tt) (Returns tt).

(** A mirror that shows the PDF at once; the capture saves [size] bytes
    through the save button; closing the page yields [close]. *)
Definition ready_page (size : Z) (close : result unit) : page_script :=
  mkPage (Returns tt) (Returns tt) [shows_pdf "Sci-Hub"] (button_saves size)
         close close.

Definition world_of (first second : page_script) : world :=
  mkWorld (fun url => if String.eqb url url1 then first else second)
          "2026-01-01T00:00:00" (Returns tt) (Returns tt).

(** The target file exists and has exactly 1000 bytes; neither mirror has
    the paper. *)
Definition thousand_bytes : machine := start (Some 1000%Z).

Definition no_mirror_has_it : world := world_of unavailable_page silent_page.

(** The first mirror delivers the PDF but closing its page raises; the
    second mirror then saves a file of ten bytes over it. *)
Definition close_raises : world :=
  world_of (ready_page 5000 (Raises PlaywrightError))
           (ready_page 10 (Returns tt)).

End Scenario.

(** ** The identifier source: [extract_valid_dois] and [sanitize_filename] *)

Module Source.

(** [str.isspace] on the characters below 256. *)
Definition is_space (c : ascii) : bool :=
  let n := nat_of_ascii c in
  ((9 <=? n)%nat && (n <=? 13)%nat) || ((28 <=? n)%nat && (n <=? 32)%nat)
  || (n =? 133)%nat || (n =? 160)%nat.

Fixpoint lstrip (s : string) : string :=
  match s with
  | EmptyString => EmptyString
  | String c r => if is_space c then lstrip r else s
  end.

Fixpoint rstrip (s : string) : string :=
  match s with
  | EmptyString => EmptyString
  | String c r =>
      match rstrip r with
      | EmptyString => if is_space c then EmptyString else String c EmptyString
      | r' => String c r'
      end
  end.

(** [s.strip()] *)
Definition strip (s : string) : string := rstrip (lstrip s).

(** The string is empty or begins with a character that is no space. *)
Definition no_lead (s : string) : Prop :=
  match s with
  | EmptyString => True
  | String c _ => is_space c = false
  end.

(** What a row of [csv.DictReader] holds under [doi]: the file has no such
    column; the row is too short to reach the column, and the reader fills
    it with [None]; or the text of the field. *)
Inductive cell : Type :=
| NoColumn
| ShortRow
| Cell (text : string).

(** [row.get('doi', '')] *)
Definition row_get (c : cell) : option string :=
  match c with
  | NoColumn => Some EmptyString
  | ShortRow => None
  | Cell t => Some t
  end.

(** What [extract_valid_dois] ends with: its list, or the [AttributeError]
    of [strip] called on [None]. *)
Inductive extracted : Type :=
| Extracted (dois : list string)
| AttributeError.

(** [doi and doi.lower() != 'no doi'] *)
Definition valid_doi (doi : string) : bool :=
  negb (String.eqb doi EmptyString) && negb (String.eqb (lower doi) "no doi").

(** The [for] loop over the rows, [valid_dois] being the list so far. *)
Fixpoint extract_from (rows : list cell) (valid_dois : list string)
  : extracted :=
  match rows with
  | [] => Extracted valid_dois
  | row :: rest =>
      match row_get row with
      | None => AttributeError
      | Some t =>
          let doi := strip t in
          if valid_doi doi then extract_from rest (valid_dois ++ [doi])
          else extract_from rest valid_dois
      end
  end.

Definition extract_valid_dois (rows : list cell) : extracted :=
  extract_from rows [].

(** The characters the pattern of [sanitize_filename] matches: the angle
    brackets, the colon, the double quote, the slash, the backslash, the
    bar, the question mark and the star. *)
Definition forbidden (c : ascii) : bool :=
  existsb (Nat.eqb (nat_of_ascii c)) [60; 62; 58; 34; 47; 92; 124; 63; 42]%nat.

(** [re.sub(pattern, '_', filename)] *)
Fixpoint substitute (s : string) : string :=
  match s with
  | EmptyString => EmptyString
  | String c r => String (if forbidden c then "_"%char else c) (substitute r)
  end.

(** [s[:n]] *)
Fixpoint take (n : nat) (s : string) : string :=
  match n, s with
  | O, _ => EmptyString
  | S _, EmptyString => EmptyString
  | S n', String c r => String c (take n' r)
  end.

Definition sanitize_filename (filename : string) : string :=
  let filename := substitute filename in
  if (200 <? String.length filename)%nat then take 200 filename else filename.

(** No character of [s] is matched by the pattern. *)
Fixpoint clean (s : string) : bool :=
  match s with
  | EmptyString => true
  | String c r => negb (forbidden c) && clean r
  end.

End Source.

(** ** What [save] writes *)

Module Saved.

Import Persist.

(** The value [json.load] reads back from what [json.dump] wrote for the
    ledger: an object with its three entries, in their order. *)
Definition dump (d : Ledger.data) : json :=
  JObj [("downloaded", JArr (map JStr (Ledger.downloaded d)));
        ("failed", JArr (map JStr (Ledger.failed d)));
        ("last_update",
         match Ledger.last_update d with
         | Some t => JStr t
         | None => JNull
         end)].

(** The ledger as the dict [self.data]. *)
Definition raw_of (d : Ledger.data) : raw :=
  mkRaw (JArr (map JStr (Ledger.downloaded d)))
        (JArr (map JStr (Ledger.failed d)))
        (match Ledger.last_update d with
         | Some t => JStr t
         | None => JNull
         end).

(** The value an object gives a key: that of its last member with the
    key. *)
Fixpoint lookup_last (k : string) (members : list (string * json))
  : option json :=
  match members with
  | [] => None
  | (k', v) :: rest =>
      match lookup_last k rest with
      | Some v' => Some v'
      | None => if String.eqb k' k then Some v else None
      end
  end.

Definition entry (k : string) (members : list (string * json))
    (default : json) : json :=
  match lookup_last k members with
  | Some v => v
  | None => default
  end.

End Saved.

(** ** The loop of [main] over the pending identifiers *)

Module Session.

Import Hybrid.

(** [[doi for doi in dois if not progress.is_processed(doi)]] *)
Definition pending_dois (dois : list string) (d : Ledger.data) : list string :=
  filter (fun doi => negb (Ledger.is_processed doi d)) dois.

(** The outside world at one turn of the loop: the answers of the browser,
    the clock and the disk, and what is at the target path of the
    identifier when its turn comes. *)
Record iteration : Type := mkIteration {
  it_world : world;
  it_file : option Z
}.

(** [for i, doi in enumerate(pending_dois)], from index [i] on.  An
    exception that comes out of a turn ends the loop. *)
Fixpoint for_loop (its : nat -> iteration) (i : nat) (pending : list string)
  : M machine unit :=
  match pending with
  | [] => ret tt
  | doi :: rest =>
      modify (set_file (it_file (its i))) ;;
      process_doi (it_world (its i)) SCIHUB_MIRRORS doi ;;
      for_loop its (S i) rest
  end.

(** *** Reading a trace, continued *)

(** No call of [m] satisfies [p], and [m] leaves the component [f] of the
    machine as it was. *)
Definition framed {X A} (p : event -> bool) (f : machine -> X)
    (m : M machine A) : Prop :=
  forall s,
    (exists tr, since s (snd (m s)) tr /\ existsb p tr = false) /\
    f (snd (m s)) = f s.

(** [m] makes the call [e], unless it raises. *)
Definition reaches {A} (e : event) (m : M machine A) : Prop :=
  forall s, exists tr,
    since s (snd (m s)) tr /\ (In e tr \/ exists x, fst (m s) = Raises x).

Definition is_new_page (e : event) : bool :=
  match e with
  | EvNewPage => true
  | _ => false
  end.

(** The calls of the capturer that act on the page or on the file. *)
Definition is_capturing (e : event) : bool :=
  match e with
  | EvCapture | EvClick _ | EvSaveAs | EvNewTab | EvTabGoto _ => true
  | _ => false
  end.

(** The calls the wait loop makes. *)
Definition poll_event (e : event) : bool :=
  match e with
  | EvTitle | EvQuery _ => true
  | _ => false
  end.

(** The calls [download_with_browser] makes. *)
Definition capturer_event (e : event) : bool :=
  match e with
  | EvCapture | EvQuery _ | EvClick _ | EvGetSrc _ | EvSaveAs | EvNewTab
  | EvTabGoto _ | EvTabClose | EvFrameLocator => true
  | _ => false
  end.

(** No component at all. *)
Definition unit_of (s : machine) : unit := tt.

(** No call at all. *)
Definition nop (e : event) : bool := false.

Definition is_new_tab (e : event) : bool :=
  match e with
  | EvNewTab => true
  | _ => false
  end.

(** The variables and the file that only a capture changes. *)
Definition outcome (s : machine) : option Z * bool :=
  (pdf_file s, downloaded s).

(** The poll of a page whose title holds [robot]. *)
Definition challenged (sn : snapshot) : Prop :=
  exists title, sn_title sn = Returns title /\
                contains "robot" (lower title) = true.

(** Two identifiers, neither of them on any mirror, no file on disk. *)
Definition two_dois : list string := ["10.1/a"; "10.1/b"].

Definition nothing_anywhere (i : nat) : iteration :=
  mkIteration
    (mkWorld (fun _ => Scenario.unavailable_page) "2026-01-01T00:00:00"
             (Returns tt) (Returns tt))
    None.

End Session.
(** * Properties *)

(** ** The ledger *)

Section LedgerFacts.

Import Ledger.

Lemma py_in_In (x : string) (l : list string) : py_in x l = true <-> In x l.
Proof.
  unfold py_in. rewrite existsb_exists. split.
  - intros [y [Hy Heq]]. apply String.eqb_eq in Heq. now subst.
  - intros H. exists x. split; [assumption | apply String.eqb_refl].
Qed.

Lemma py_in_false (x : string) (l : list string) :
  py_in x l = false <-> ~ In x l.
Proof.
  rewrite <- py_in_In. destruct (py_in x l); split; congruence.
Qed.

Lemma list_remove_present (x : string) (l : list string) :
  In x l -> list_remove x l = Returns (without_first x l).
Proof.
  induction l as [|y r IH]; simpl; [tauto|].
  intros [Heq | Hin].
  - subst. now rewrite String.eqb_refl.
  - destruct (String.eqb x y); [reflexivity|]. now rewrite IH.
Qed.

Lemma list_remove_absent (x : string) (l : list string) :
  ~ In x l -> list_remove x l = Raises ValueError.
Proof.
  induction l as [|y r IH]; simpl; [reflexivity|].
  intros H. destruct (String.eqb_spec x y) as [->|_]; [tauto|].
  rewrite IH; tauto.
Qed.

Lemma without_first_absent (x : string) (l : list string) :
  ~ In x l -> without_first x l = l.
Proof.
  induction l as [|y r IH]; simpl; [reflexivity|].
  intros H. destruct (String.eqb_spec x y) as [->|_]; [tauto|].
  f_equal. apply IH. tauto.
Qed.

Lemma without_first_subset (x y : string) (l : list string) :
  In y (without_first x l) -> In y l.
Proof.
  induction l as [|z r IH]; simpl; [tauto|].
  destruct (String.eqb x z); simpl; tauto.
Qed.

Lemma without_first_other (x y : string) (l : list string) :
  x <> y -> In y l -> In y (without_first x l).
Proof.
  intros Hxy. induction l as [|z r IH]; simpl; [tauto|].
  destruct (String.eqb_spec x z) as [->|_]; simpl; intuition congruence.
Qed.

Lemma without_first_count (x : string) (l : list string) :
  count_occ string_dec (without_first x l) x =
  Nat.pred (count_occ string_dec l x).
Proof.
  induction l as [|z r IH]; simpl; [reflexivity|].
  destruct (String.eqb_spec x z) as [->|Hne].
  - destruct (string_dec z z); [reflexivity | congruence].
  - simpl. destruct (string_dec z x); [congruence | exact IH].
Qed.

Lemma without_first_NoDup (x : string) (l : list string) :
  NoDup l -> NoDup (without_first x l).
Proof.
  induction 1 as [|z r Hz Hr IH]; simpl; [constructor|].
  destruct (String.eqb x z); [assumption|].
  constructor; [|assumption].
  intros H. apply Hz. eapply without_first_subset; eassumption.
Qed.

Lemma NoDup_snoc (x : string) (l : list string) :
  NoDup l -> ~ In x l -> NoDup (l ++ [x]).
Proof.
  intros Hl Hx. apply NoDup_app; [assumption | repeat constructor; simpl; tauto |].
  intros y Hy [<- | []]. contradiction.
Qed.

(** The object after [mark_downloaded], and what the call yields. *)
Lemma mark_downloaded_eq (now : string) (disk : result unit) (doi : string)
    (d : data) :
  mark_downloaded now disk doi d =
  (disk,
   mkData (if py_in doi (downloaded d) then downloaded d
           else downloaded d ++ [doi])
          (without_first doi (failed d))
          (Some now)).
Proof.
  unfold mark_downloaded, bind, get, when, save, modify, answer, ret.
  destruct (py_in doi (downloaded d)) eqn:Hd; simpl;
    destruct (py_in doi (failed d)) eqn:Hf; simpl.
  all: try (apply py_in_In in Hf; rewrite (list_remove_present _ _ Hf);
            reflexivity).
  all: apply py_in_false in Hf; rewrite (without_first_absent _ _ Hf);
    reflexivity.
Qed.

(** The object after [mark_failed], and what the call yields. *)
Lemma mark_failed_eq (now : string) (disk : result unit) (doi : string)
    (d : data) :
  mark_failed now disk doi d =
  (disk,
   mkData (downloaded d)
          (if negb (py_in doi (failed d)) && negb (py_in doi (downloaded d))
           then failed d ++ [doi] else failed d)
          (Some now)).
Proof.
  unfold mark_failed, bind, get, when, save, modify, answer, ret.
  destruct (negb (py_in doi (failed d)) && negb (py_in doi (downloaded d)));
    reflexivity.
Qed.

Lemma mark_downloaded_well_formed now disk doi d :
  well_formed d -> well_formed (snd (mark_downloaded now disk doi d)).
Proof.
  intros (Hd & Hf & Hx). rewrite mark_downloaded_eq. unfold well_formed. simpl.
  split; [|split].
  - destruct (py_in doi (downloaded d)) eqn:E; [assumption|].
    apply NoDup_snoc; [assumption | now apply py_in_false].
  - now apply without_first_NoDup.
  - intros x Hin Hfx.
    assert (Hfx' : In x (failed d)) by (eapply without_first_subset; eauto).
    destruct (py_in doi (downloaded d)) eqn:E.
    + exact (Hx x Hin Hfx').
    + apply in_app_or in Hin. destruct Hin as [Hin | [<- | []]].
      * exact (Hx x Hin Hfx').
      * assert (Hc := without_first_count doi (failed d)).
        assert (Hle : (count_occ string_dec (failed d) doi <= 1)%nat)
          by (now apply NoDup_count_occ).
        apply (count_occ_In string_dec) in Hfx. lia.
Qed.

Lemma mark_failed_well_formed now disk doi d :
  well_formed d -> well_formed (snd (mark_failed now disk doi d)).
Proof.
  intros (Hd & Hf & Hx). rewrite mark_failed_eq. unfold well_formed. simpl.
  destruct (py_in doi (failed d)) eqn:Ef; simpl; [now repeat split|].
  destruct (py_in doi (downloaded d)) eqn:Ed; simpl; [now repeat split|].
  apply py_in_false in Ef. apply py_in_false in Ed.
  split; [assumption|]. split; [now apply NoDup_snoc|].
  intros x Hin Hfx. apply in_app_or in Hfx.
  destruct Hfx as [Hfx | [<- | []]]; [exact (Hx x Hin Hfx) | contradiction].
Qed.

Lemma after_calls_well_formed (cs : list call) (d : data) :
  well_formed d -> well_formed (after_calls cs d).
Proof.
  revert d. induction cs as [|c cs IH]; intros d Hd; simpl; [assumption|].
  apply IH. unfold perform. destruct (c_method c).
  - now apply mark_downloaded_well_formed.
  - now apply mark_failed_well_formed.
Qed.

Lemma empty_well_formed : well_formed empty.
Proof.
  unfold well_formed, empty. simpl. repeat split; try constructor. tauto.
Qed.

End LedgerFacts.

Section LedgerClaims.

Import Ledger.

(** C1.  Starting from the empty ledger, after any sequence of
    [mark_downloaded] and [mark_failed] calls (whatever the clock and the
    disk answer at each [save]), for every identifier [d]:
    [is_processed d] is true iff [d] is in exactly one of the downloaded
    and failed lists, and [d] is never in both. *)
Theorem C1_processed_iff_exactly_one (cs : list call) (d : string) :
  let s := after_calls cs empty in
  (is_processed d s = true <->
     (In d (downloaded s) /\ ~ In d (failed s)) \/
     (~ In d (downloaded s) /\ In d (failed s)))
  /\ ~ (In d (downloaded s) /\ In d (failed s)).
Proof.
  intros s.
  destruct (after_calls_well_formed cs empty empty_well_formed)
    as (_ & _ & Hx). fold s in Hx.
  assert (Hboth : ~ (In d (downloaded s) /\ In d (failed s))).
  { intros [H1 H2]. exact (Hx d H1 H2). }
  split; [|exact Hboth].
  unfold is_processed. rewrite orb_true_iff, !py_in_In.
  split.
  - intros [H | H]; [left | right]; split; try assumption;
      intros H'; apply Hboth; tauto.
  - tauto.
Qed.

(** C10.  Starting from the empty ledger, after any sequence of
    [mark_downloaded] and [mark_failed] calls, neither the downloaded list
    nor the failed list holds an identifier twice. *)
Theorem C10_lists_duplicate_free (cs : list call) :
  NoDup (downloaded (after_calls cs empty)) /\
  NoDup (failed (after_calls cs empty)).
Proof.
  destruct (after_calls_well_formed cs empty empty_well_formed)
    as (Hd & Hf & _).
  now split.
Qed.

(** A progress file whose failed list names an identifier twice is loaded
    as it is: such a ledger state is one the program can start from. *)
Lemma duplicates_are_loaded :
  Persist.as_ledger
    (snd (Persist.init
            (Persist.Present
               (Returns (Persist.JObj
                  [("failed",
                    Persist.JArr [Persist.JStr "10.1/a";
                                  Persist.JStr "10.1/a"])])))))
  = Some (mkData [] ["10.1/a"; "10.1/a"] None).
Proof. reflexivity. Qed.

(** C2, as stated, fails where the failed list names the identifier twice:
    [mark_downloaded] removes one occurrence and the identifier stays in
    the failed list. *)
Lemma C2_counterexample :
  let s := mkData [] ["10.1/a"; "10.1/a"] None in
  let s' := snd (mark_downloaded "t1" (Returns tt) "10.1/a" s) in
  In "10.1/a" (failed s) /\
  In "10.1/a" (downloaded s') /\ In "10.1/a" (failed s').
Proof. vm_compute. tauto. Qed.

(** C2, amended.  For every identifier [d] and every ledger state:
    [mark_failed d] when [d] is in the downloaded list leaves both lists
    unchanged; [mark_downloaded d] when [d] is in the failed list puts [d]
    in the downloaded list and drops its first occurrence from the failed
    list, so [d] is out of the failed list when it occurred there once. *)
Theorem C2_priority (now : string) (disk : result unit) (d : string)
    (s : data) :
  (In d (downloaded s) ->
     downloaded (snd (mark_failed now disk d s)) = downloaded s /\
     failed (snd (mark_failed now disk d s)) = failed s)
  /\
  (In d (failed s) ->
     In d (downloaded (snd (mark_downloaded now disk d s))) /\
     failed (snd (mark_downloaded now disk d s)) = without_first d (failed s) /\
     (count_occ string_dec (failed s) d = 1%nat ->
        ~ In d (failed (snd (mark_downloaded now disk d s))))).
Proof.
  split.
  - intros Hd. rewrite mark_failed_eq. simpl.
    apply py_in_In in Hd. rewrite Hd, andb_false_r. now split.
  - intros Hf. rewrite mark_downloaded_eq. simpl. split; [|split].
    + destruct (py_in d (downloaded s)) eqn:E.
      * now apply py_in_In.
      * apply in_or_app. right. now left.
    + reflexivity.
    + intros Hc Hin. apply (count_occ_In string_dec) in Hin.
      rewrite without_first_count, Hc in Hin. simpl in Hin. lia.
Qed.

Lemma C2_priority_witness :
  let s := mkData ["10.1/b"] ["10.1/a"] None in
  (downloaded (snd (mark_failed "t1" (Returns tt) "10.1/b" s)) = downloaded s /\
   failed (snd (mark_failed "t1" (Returns tt) "10.1/b" s)) = failed s)
  /\
  (In "10.1/a" (downloaded (snd (mark_downloaded "t1" (Returns tt) "10.1/a" s))) /\
   ~ In "10.1/a" (failed (snd (mark_downloaded "t1" (Returns tt) "10.1/a" s)))).
Proof.
  intros s. split.
  - apply (proj1 (C2_priority "t1" (Returns tt) "10.1/b" s)).
    simpl. now left.
  - destruct (proj2 (C2_priority "t1" (Returns tt) "10.1/a" s)) as (H1 & _ & H3).
    + simpl. now left.
    + split; [exact H1 | apply H3; reflexivity].
Defined.

(** C9, as stated, fails where the failed list names the identifier twice:
    the first call drops one occurrence, the second call the other. *)
Lemma C9_counterexample :
  let s := mkData [] ["10.1/a"; "10.1/a"] None in
  let once := snd (mark_downloaded "t1" (Returns tt) "10.1/a" s) in
  let twice := snd (mark_downloaded "t1" (Returns tt) "10.1/a" once) in
  twice <> once /\ failed once = ["10.1/a"] /\ failed twice = [].
Proof. vm_compute. repeat split. discriminate. Qed.

(** Each call stores the clock reading of its own [save]. *)
Lemma mark_downloaded_timestamp now disk d s :
  last_update (snd (mark_downloaded now disk d s)) = Some now.
Proof. now rewrite mark_downloaded_eq. Qed.

(** C9, amended.  For every identifier [d] and every ledger state whose
    failed list holds [d] at most once, a second [mark_downloaded d] leaves
    the downloaded and failed lists as the first call left them; it stores
    the clock reading of its own [save] as [last_update]. *)
Theorem C9_mark_downloaded_idempotent (now1 now2 : string)
    (disk1 disk2 : result unit) (d : string) (s : data) :
  (count_occ string_dec (failed s) d <= 1)%nat ->
  let once := snd (mark_downloaded now1 disk1 d s) in
  let twice := snd (mark_downloaded now2 disk2 d once) in
  downloaded twice = downloaded once /\
  failed twice = failed once /\
  last_update twice = Some now2 /\
  (now2 = now1 -> twice = once).
Proof.
  intros Hc once twice. subst once twice.
  rewrite !mark_downloaded_eq. simpl.
  assert (Hin : py_in d (if py_in d (downloaded s) then downloaded s
                         else downloaded s ++ [d]) = true).
  { destruct (py_in d (downloaded s)) eqn:E; [assumption|].
    apply py_in_In, in_or_app. right. now left. }
  rewrite Hin.
  assert (Hout : without_first d (without_first d (failed s))
                 = without_first d (failed s)).
  { apply without_first_absent. intros H.
    apply (count_occ_In string_dec) in H.
    rewrite without_first_count in H. lia. }
  rewrite Hout. repeat split. intros ->. reflexivity.
Qed.

Lemma C9_mark_downloaded_idempotent_witness :
  let s := mkData ["10.1/b"] ["10.1/a"; "10.1/c"] None in
  let once := snd (mark_downloaded "t1" (Returns tt) "10.1/a" s) in
  let twice := snd (mark_downloaded "t2" (Raises OSError) "10.1/a" once) in
  downloaded twice = downloaded once /\
  failed twice = failed once /\
  last_update twice = Some "t2" /\
  ("t2" = "t1" -> twice = once).
Proof.
  intros s.
  apply (C9_mark_downloaded_idempotent "t1" "t2" (Returns tt) (Raises OSError)
           "10.1/a" s).
  vm_compute. lia.
Defined.

End LedgerClaims.

(** ** Loading and saving *)

Section PersistFacts.

Import Persist.

(** [load] absorbs whatever is raised while the file is read, merged and
    reported: neither [load] nor the constructor raises. *)
Lemma load_never_raises (pf : progress_file) (r : raw) :
  fst (load pf r) = Returns tt.
Proof.
  destruct pf as [|contents]; [reflexivity|].
  unfold load, try_except.
  match goal with |- context [match ?m r with _ => _ end] =>
    destruct (m r) as [[[]|e] r'] end; reflexivity.
Qed.

Lemma init_never_raises (pf : progress_file) : fst (init pf) = Returns tt.
Proof. apply load_never_raises. Qed.

(** With no progress file, or one that cannot be opened or parsed, the
    ledger keeps its defaults. *)
Lemma init_absent : init Absent = (Returns tt, defaults).
Proof. reflexivity. Qed.

Lemma init_unreadable (e : exn) :
  init (Present (Raises e)) = (Returns tt, defaults).
Proof. reflexivity. Qed.

(** A failed write of the progress file comes out of [mark_downloaded] and
    of [mark_failed]; the object in memory has been updated all the same. *)
Lemma persist_failure_propagates (now : string) (e : exn) (doi : string)
    (d : Ledger.data) :
  fst (Ledger.mark_downloaded now (Raises e) doi d) = Raises e /\
  fst (Ledger.mark_failed now (Raises e) doi d) = Raises e.
Proof.
  now rewrite mark_downloaded_eq, mark_failed_eq.
Qed.

(** C8, at a progress file that holds [{"downloaded": 5}].  The file parses,
    [update] stores the number under [downloaded], [len] of it raises
    [TypeError] while the progress line is printed, and [load] swallows the
    exception: the constructor returns normally with a ledger that is not
    the empty default and whose [downloaded] entry is not a list. *)
Theorem C8_corrupt_file_is_kept :
  let pf := Present (Returns (JObj [("downloaded", JNum "5")])) in
  init pf = (Returns tt, mkRaw (JNum "5") (JArr []) JNull) /\
  py_len (r_downloaded (snd (init pf))) = Raises TypeError /\
  snd (init pf) <> defaults /\
  as_ledger (snd (init pf)) = None.
Proof.
  vm_compute. repeat split. discriminate.
Qed.

(** The same happens when [update] itself raises half-way: the pairs read
    before the offending element stay in the ledger. *)
Lemma update_is_not_rolled_back :
  init (Present (Returns
          (JArr [JArr [JStr "failed"; JStr "oops"]; JNum "3"])))
  = (Returns tt, mkRaw (JArr []) (JStr "oops") JNull).
Proof. reflexivity. Qed.

End PersistFacts.

(** ** The monad *)

Section MonadFacts.

Context {S : Type}.

Lemma total_ret {A} (a : A) : total (@ret S A a).
Proof. intros s. now exists a. Qed.

Lemma total_get : total (@get S).
Proof. intros s. now exists s. Qed.

Lemma total_modify (f : S -> S) : total (modify f).
Proof. intros s. now exists tt. Qed.

Lemma total_bind {A B} (m : M S A) (k : A -> M S B) :
  total m -> (forall a, total (k a)) -> total (bind m k).
Proof.
  intros Hm Hk s. unfold bind. destruct (Hm s) as [a Ha].
  destruct (m s) as [r s1]. simpl in Ha. subst r. apply Hk.
Qed.

(** A [try] whose handler returns lets nothing out. *)
Lemma total_try {A} (m : M S A) (h : exn -> M S A) :
  (forall e, total (h e)) -> total (try_except m h).
Proof.
  intros Hh s. unfold try_except. destruct (m s) as [[a|e] s1].
  - now exists a.
  - apply Hh.
Qed.

Lemma total_if {A} (b : bool) (m1 m2 : M S A) :
  total m1 -> total m2 -> total (if b then m1 else m2).
Proof. now destruct b. Qed.

Lemma total_when (b : bool) (m : M S unit) : total m -> total (when b m).
Proof. intros H. destruct b; [exact H | apply total_ret]. Qed.

End MonadFacts.

(** ** Traces *)

Section TraceFacts.

Import Hybrid.

Lemma browsing_refl (s : machine) : browsing s s.
Proof.
  exists []. unfold since. now rewrite app_nil_r.
Qed.

Lemma browsing_trans (s1 s2 s3 : machine) :
  browsing s1 s2 -> browsing s2 s3 -> browsing s1 s3.
Proof.
  intros (tr1 & H1 & M1 & P1) (tr2 & H2 & M2 & P2).
  exists (tr1 ++ tr2)%list. unfold since in *. repeat split.
  - now rewrite H2, H1, app_assoc.
  - now rewrite existsb_app, M1, M2.
  - congruence.
Qed.

Lemma browsing_log (e : event) (s : machine) :
  is_mark e = false -> browsing s (log e s).
Proof.
  intros He. exists [e]. unfold since. simpl. now rewrite He.
Qed.

Lemma browsing_set_file (f : option Z) (s : machine) :
  browsing s (set_file f s).
Proof. exists []. unfold since. simpl. now rewrite app_nil_r. Qed.

Lemma browsing_set_downloaded (b : bool) (s : machine) :
  browsing s (set_downloaded b s).
Proof. exists []. unfold since. simpl. now rewrite app_nil_r. Qed.

Lemma browsing_set_page (b : bool) (s : machine) :
  browsing s (set_page b s).
Proof. exists []. unfold since. simpl. now rewrite app_nil_r. Qed.

Lemma browses_ret {A} (a : A) : browses (ret a).
Proof. intros s. apply browsing_refl. Qed.

Lemma browses_raise {A} (e : exn) : browses (@raise machine A e).
Proof. intros s. apply browsing_refl. Qed.

Lemma browses_answer {A} (r : result A) : browses (answer r).
Proof. intros s. apply browsing_refl. Qed.

Lemma browses_get : browses get.
Proof. intros s. apply browsing_refl. Qed.

Lemma browses_modify (f : machine -> machine) :
  (forall s, browsing s (f s)) -> browses (modify f).
Proof. intros H s. apply H. Qed.

Lemma browses_bind {A B} (m : M machine A) (k : A -> M machine B) :
  browses m -> (forall a, browses (k a)) -> browses (bind m k).
Proof.
  intros Hm Hk s. unfold bind. specialize (Hm s).
  destruct (m s) as [[a|e] s1]; simpl in *; [|assumption].
  eapply browsing_trans; [eassumption | apply Hk].
Qed.

Lemma browses_try {A} (m : M machine A) (h : exn -> M machine A) :
  browses m -> (forall e, browses (h e)) -> browses (try_except m h).
Proof.
  intros Hm Hh s. unfold try_except. specialize (Hm s).
  destruct (m s) as [[a|e] s1]; simpl in *; [assumption|].
  eapply browsing_trans; [eassumption | apply Hh].
Qed.

Lemma browses_if {A} (b : bool) (m1 m2 : M machine A) :
  browses m1 -> browses m2 -> browses (if b then m1 else m2).
Proof. now destruct b. Qed.

Lemma browses_when (b : bool) (m : M machine unit) :
  browses m -> browses (when b m).
Proof. intros H. destruct b; [exact H | apply browses_ret]. Qed.

Lemma browses_call {A} (e : event) (r : result A) :
  is_mark e = false -> browses (call e r).
Proof.
  intros He. unfold call. apply browses_bind.
  - apply browses_modify. intros s. now apply browsing_log.
  - intros _. apply browses_answer.
Qed.

Lemma opens_with_call {A B} (e : event) (r : result A)
    (k : A -> M machine B) :
  (forall a, browses (k a)) -> opens_with e (bind (call e r) k).
Proof.
  intros Hk s. unfold bind, call, modify, answer. simpl.
  destruct r as [a|x]; simpl.
  - destruct (Hk a (log e s)) as (tr & Htr & _).
    exists tr. unfold since in *. rewrite Htr. simpl.
    now rewrite <- app_assoc.
  - exists []. reflexivity.
Qed.

Lemma opens_with_log {B} (e : event) (k : unit -> M machine B) :
  (forall a, browses (k a)) -> opens_with e (bind (modify (log e)) k).
Proof.
  intros Hk s. unfold bind, modify. simpl.
  destruct (Hk tt (log e s)) as (tr & Htr & _).
  exists tr. unfold since in *. rewrite Htr. simpl.
  now rewrite <- app_assoc.
Qed.

Lemma opens_with_bind {A B} (e : event) (m : M machine A)
    (k : A -> M machine B) :
  opens_with e m -> (forall a, browses (k a)) -> opens_with e (bind m k).
Proof.
  intros Hm Hk s. unfold bind. specialize (Hm s).
  destruct (m s) as [[a|x] s1]; simpl in *; [|assumption].
  destruct Hm as (tr & Htr). destruct (Hk a s1) as (tr' & Htr' & _).
  exists (tr ++ tr')%list. unfold since in *. rewrite Htr', Htr.
  now rewrite <- app_assoc.
Qed.

Lemma opens_with_try {A} (e : event) (m : M machine A)
    (h : exn -> M machine A) :
  opens_with e m -> (forall x, browses (h x)) ->
  opens_with e (try_except m h).
Proof.
  intros Hm Hh s. unfold try_except. specialize (Hm s).
  destruct (m s) as [[a|x] s1]; simpl in *; [assumption|].
  destruct Hm as (tr & Htr). destruct (Hh x s1) as (tr' & Htr' & _).
  exists (tr ++ tr')%list. unfold since in *. rewrite Htr', Htr.
  now rewrite <- app_assoc.
Qed.

Lemma sound_ret_false : sound (ret false).
Proof. intros s. simpl. discriminate. Qed.

Lemma sound_file_valid : sound file_valid.
Proof. intros s. simpl. congruence. Qed.

Lemma sound_bind {A} (m : M machine A) (k : A -> M machine bool) :
  (forall a, sound (k a)) -> sound (bind m k).
Proof.
  intros Hk s. unfold bind.
  destruct (m s) as [[a|e] s1]; [apply Hk | simpl; discriminate].
Qed.

Lemma sound_try (m : M machine bool) (h : exn -> M machine bool) :
  sound m -> (forall e, sound (h e)) -> sound (try_except m h).
Proof.
  intros Hm Hh s. unfold try_except. specialize (Hm s).
  destruct (m s) as [[a|e] s1]; [assumption | apply Hh].
Qed.

Lemma sound_if (b : bool) (m1 m2 : M machine bool) :
  sound m1 -> sound m2 -> sound (if b then m1 else m2).
Proof. now destruct b. Qed.

End TraceFacts.

(** ** The payload capturer *)

Section CaptureFacts.

Import Hybrid.

Create HintDb capture.

#[local] Hint Resolve browses_ret browses_answer browses_get browses_raise
  browses_bind browses_try browses_if browses_when : capture.
#[local] Hint Resolve total_ret total_get total_modify total_bind total_try
  total_if total_when : capture.
#[local] Hint Resolve sound_ret_false sound_file_valid sound_bind sound_try
  sound_if : capture.

Ltac browse :=
  repeat first
    [ apply browses_call; reflexivity
    | apply browses_modify; intros;
      first [ apply browsing_log; reflexivity
            | apply browsing_set_file
            | apply browsing_set_downloaded
            | apply browsing_set_page ]
    | apply browses_bind
    | apply browses_try
    | apply browses_if
    | apply browses_when
    | apply browses_ret
    | apply browses_raise
    | apply browses_answer
    | apply browses_get
    | intro ].

Lemma browses_save_as (a : save_answer) : browses (save_as a).
Proof. unfold save_as. browse. Qed.

Lemma browses_file_valid : browses file_valid.
Proof. unfold file_valid. browse. Qed.

#[local] Hint Resolve browses_save_as browses_file_valid : capture.

Lemma browses_click_body sel found download save :
  browses (click_body sel found download save).
Proof. unfold click_body. browse; auto with capture. Qed.

Lemma browses_find_pdf_url cs : browses (find_pdf_url cs).
Proof. unfold find_pdf_url. browse. Qed.

Lemma browses_resolve_url cs url : browses (resolve_url cs url).
Proof. unfold resolve_url. browse. Qed.

Lemma browses_navigate_body cs : browses (navigate_body cs).
Proof.
  unfold navigate_body.
  apply browses_bind; [apply browses_find_pdf_url|]. intros url.
  apply browses_if; [|apply browses_ret].
  apply browses_bind; [apply browses_resolve_url|]. intros target.
  browse; auto with capture.
Qed.

Lemma browses_button_method cs : browses (button_method cs).
Proof.
  unfold button_method, button_body.
  apply browses_try; [apply browses_click_body | browse].
Qed.

Lemma browses_link_method cs : browses (link_method cs).
Proof.
  unfold link_method, link_body.
  apply browses_try; [apply browses_click_body | browse].
Qed.

Lemma browses_navigate_method cs : browses (navigate_method cs).
Proof.
  unfold navigate_method.
  apply browses_try; [apply browses_navigate_body | browse].
Qed.

Lemma browses_download_with_browser cs : browses (download_with_browser cs).
Proof.
  unfold download_with_browser.
  apply browses_bind; [browse|]. intros _.
  apply browses_bind; [apply browses_button_method|]. intros b1.
  apply browses_if; [apply browses_ret|].
  apply browses_bind; [apply browses_link_method|]. intros b2.
  apply browses_if; [apply browses_ret|].
  apply browses_bind; [apply browses_navigate_method|]. intros b3.
  apply browses_if; apply browses_ret.
Qed.

(** Each method returns: its handler does. *)
Lemma total_button_method cs : total (button_method cs).
Proof. apply total_try. intros e. apply total_ret. Qed.

Lemma total_link_method cs : total (link_method cs).
Proof. apply total_try. intros e. apply total_ret. Qed.

Lemma total_navigate_method cs : total (navigate_method cs).
Proof. apply total_try. intros e. apply total_ret. Qed.

Lemma total_download_with_browser cs : total (download_with_browser cs).
Proof.
  unfold download_with_browser.
  apply total_bind; [apply total_modify|]. intros _.
  apply total_bind; [apply total_button_method|]. intros b1.
  apply total_if; [apply total_ret|].
  apply total_bind; [apply total_link_method|]. intros b2.
  apply total_if; [apply total_ret|].
  apply total_bind; [apply total_navigate_method|]. intros b3.
  apply total_if; apply total_ret.
Qed.

(** Each method opens with the query for its element. *)
Lemma opens_click_method sel found download save :
  opens_with (EvQuery sel) (click_method sel found download save).
Proof.
  unfold click_method, click_body.
  apply opens_with_try; [|browse].
  apply opens_with_call. intros element.
  apply browses_if; [|apply browses_ret]. browse; auto with capture.
Qed.

Lemma opens_find_pdf_url cs : opens_with (EvQuery EmbedPdf) (find_pdf_url cs).
Proof.
  unfold find_pdf_url. apply opens_with_call. intros embed. browse.
Qed.

Lemma browses_after_url cs (pdf_url : option string) :
  browses
    (if truthy pdf_url then
       target <- resolve_url cs (text pdf_url) ;;
       call EvNewTab (cs_new_tab cs) ;;
       try_except
         (call (EvTabGoto target) (cs_tab_download cs) ;;
          save_as (cs_tab_save cs) ;;
          call EvTabClose (cs_tab_close cs) ;;
          file_valid)
         (fun _ =>
            call EvTabClose (cs_tab_close_again cs) ;;
            try_except (call EvFrameLocator (cs_frame_locator cs))
                       (fun _ => ret tt) ;;
            ret false)
     else ret false).
Proof.
  apply browses_if; [|apply browses_ret].
  apply browses_bind; [apply browses_resolve_url|]. intros target.
  browse; auto with capture.
Qed.

Lemma opens_navigate_method cs :
  opens_with (EvQuery EmbedPdf) (navigate_method cs).
Proof.
  unfold navigate_method. apply opens_with_try; [|browse].
  unfold navigate_body. apply opens_with_bind.
  - apply opens_find_pdf_url.
  - apply browses_after_url.
Qed.

(** Each method answers [True] only on a file that passed the check. *)
Lemma sound_click_method sel found download save :
  sound (click_method sel found download save).
Proof.
  unfold click_method, click_body. auto 10 with capture.
Qed.

Lemma sound_navigate_method cs : sound (navigate_method cs).
Proof.
  unfold navigate_method, navigate_body. auto 12 with capture.
Qed.

(** Each method answers [True] only if the file its own [save_as] left
    passes the check. *)
Lemma only_if_ret_false (Q : Prop) : only_if Q (ret false).
Proof. intros s. simpl. discriminate. Qed.

Lemma only_if_bind {A} (Q : Prop) (m : M machine A)
    (k : A -> M machine bool) :
  (forall a, only_if Q (k a)) -> only_if Q (bind m k).
Proof.
  intros Hk s. unfold bind.
  destruct (m s) as [[a|e] s1]; [apply Hk | simpl; discriminate].
Qed.

Lemma only_if_try (Q : Prop) (m : M machine bool)
    (h : exn -> M machine bool) :
  only_if Q m -> (forall e, only_if Q (h e)) -> only_if Q (try_except m h).
Proof.
  intros Hm Hh s. unfold try_except. specialize (Hm s).
  destruct (m s) as [[a|e] s1]; [assumption | apply Hh].
Qed.

Lemma only_if_if (Q : Prop) (b : bool) (m1 m2 : M machine bool) :
  only_if Q m1 -> only_if Q m2 -> only_if Q (if b then m1 else m2).
Proof. now destruct b. Qed.

Lemma click_method_checks_its_save sel found download save :
  only_if (valid_pdf (sv_file save) = true)
          (click_method sel found download save).
Proof.
  unfold click_method, click_body.
  apply only_if_try; [|intros e; apply only_if_ret_false].
  apply only_if_bind. intros element.
  apply only_if_if; [|apply only_if_ret_false].
  intros s. unfold bind, call, save_as, file_valid, modify, answer, get, ret.
  simpl. destruct download as [[]|e]; simpl; [|discriminate].
  destruct (sv_result save) as [[]|e]; simpl; [|discriminate].
  congruence.
Qed.

Lemma navigate_method_checks_its_save cs :
  only_if (valid_pdf (sv_file (cs_tab_save cs)) = true) (navigate_method cs).
Proof.
  unfold navigate_method, navigate_body.
  apply only_if_try; [|intros e; apply only_if_ret_false].
  apply only_if_bind. intros pdf_url.
  apply only_if_if; [|apply only_if_ret_false].
  apply only_if_bind. intros target.
  apply only_if_bind. intros _.
  apply only_if_try.
  - intros s.
    unfold bind, call, save_as, file_valid, modify, answer, get, ret.
    simpl. destruct (cs_tab_download cs) as [[]|e]; simpl; [|discriminate].
    destruct (sv_result (cs_tab_save cs)) as [[]|e]; simpl; [|discriminate].
    destruct (cs_tab_close cs) as [[]|e]; simpl; [|discriminate].
    congruence.
  - intros e. apply only_if_bind. intros _.
    apply only_if_bind. intros _. apply only_if_ret_false.
Qed.

(** So a save that leaves no file, or too small a file, makes the method
    answer [False]. *)
Lemma method_fails (Q : Prop) (m : M machine bool) (s : machine) :
  total m -> only_if Q m -> ~ Q -> fst (m s) = Returns false.
Proof.
  intros Ht Ho HQ. destruct (Ht s) as [b Hb]. rewrite Hb.
  destruct b; [|reflexivity]. exfalso. apply HQ. exact (Ho s Hb).
Qed.

Lemma since_then_browsing (e : event) (s1 s2 s3 : machine)
    (tr : list event) :
  since s1 s2 (e :: tr) -> browsing s2 s3 ->
  exists tr', since s1 s3 (e :: tr').
Proof.
  intros H (tr2 & H2 & _). exists (tr ++ tr2)%list. unfold since in *.
  rewrite H2, H. now rewrite <- app_assoc.
Qed.

(** A [try] block that raises makes its method answer [False], from the
    state the block left. *)
Lemma method_absorbs (body : M machine bool) (e : exn) (s s1 : machine) :
  body s = (Raises e, s1) ->
  try_except body (fun _ => ret false) s = (Returns false, s1).
Proof. intros H. unfold try_except. now rewrite H. Qed.

Lemma opens_link_method cs : opens_with (EvQuery PdfLink) (link_method cs).
Proof. exact (opens_click_method _ _ _ _). Qed.

Lemma sound_button_method cs : sound (button_method cs).
Proof. exact (sound_click_method _ _ _ _). Qed.

Lemma sound_link_method cs : sound (link_method cs).
Proof. exact (sound_click_method _ _ _ _). Qed.

Lemma button_method_checks_its_save cs :
  only_if (valid_pdf (sv_file (cs_button_save cs)) = true) (button_method cs).
Proof. exact (click_method_checks_its_save _ _ _ _). Qed.

Lemma link_method_checks_its_save cs :
  only_if (valid_pdf (sv_file (cs_link_save cs)) = true) (link_method cs).
Proof. exact (click_method_checks_its_save _ _ _ _). Qed.

(** The three methods in sequence. *)
Lemma download_with_browser_steps cs s :
  exists b1 s1,
    button_method cs (log EvCapture s) = (Returns b1, s1) /\
    if b1 then download_with_browser cs s = (Returns true, s1)
    else exists b2 s2,
      link_method cs s1 = (Returns b2, s2) /\
      if b2 then download_with_browser cs s = (Returns true, s2)
      else exists b3 s3,
        navigate_method cs s2 = (Returns b3, s3) /\
        download_with_browser cs s = (Returns b3, s3).
Proof.
  destruct (total_button_method cs (log EvCapture s)) as [b1 H1].
  unfold download_with_browser, bind, modify, ret. cbv beta iota.
  destruct (button_method cs (log EvCapture s)) as [r1 s1]. simpl in H1.
  subst r1. exists b1, s1. split; [reflexivity|].
  destruct b1; [reflexivity|].
  destruct (total_link_method cs s1) as [b2 H2].
  destruct (link_method cs s1) as [r2 s2]. simpl in H2. subst r2.
  exists b2, s2. split; [reflexivity|].
  destruct b2; [reflexivity|].
  destruct (total_navigate_method cs s2) as [b3 H3].
  destruct (navigate_method cs s2) as [r3 s3]. simpl in H3. subst r3.
  exists b3, s3. split; [reflexivity|].
  now destruct b3.
Qed.

End CaptureFacts.

Section CaptureClaims.

Import Hybrid.

(** When the save-button method has answered [False], the PDF-link method
    is tried next. *)
Lemma link_follows_button cs s s1 :
  button_method cs (log EvCapture s) = (Returns false, s1) ->
  exists tr, since s1 (snd (download_with_browser cs s)) (EvQuery PdfLink :: tr).
Proof.
  intros H1.
  destruct (download_with_browser_steps cs s) as (b1 & s1' & E1 & K).
  rewrite H1 in E1. injection E1 as <- <-.
  destruct K as (b2 & s2 & E2 & K).
  destruct (opens_link_method cs s1) as (tr & Htr).
  rewrite E2 in Htr. simpl in Htr.
  destruct b2.
  - rewrite K. now exists tr.
  - destruct K as (b3 & s3 & E3 & K). rewrite K. simpl.
    eapply since_then_browsing; [exact Htr|].
    generalize (browses_navigate_method cs s2). now rewrite E3.
Qed.

(** When the first two methods have answered [False], the embed or iframe
    method is tried next. *)
Lemma navigate_follows_link cs s s1 s2 :
  button_method cs (log EvCapture s) = (Returns false, s1) ->
  link_method cs s1 = (Returns false, s2) ->
  exists tr,
    since s2 (snd (download_with_browser cs s)) (EvQuery EmbedPdf :: tr).
Proof.
  intros H1 H2.
  destruct (download_with_browser_steps cs s) as (b1 & s1' & E1 & K).
  rewrite H1 in E1. injection E1 as <- <-.
  destruct K as (b2 & s2' & E2 & K).
  rewrite H2 in E2. injection E2 as <- <-.
  destruct K as (b3 & s3 & E3 & K). rewrite K. simpl.
  destruct (opens_navigate_method cs s2) as (tr & Htr).
  rewrite E3 in Htr. now exists tr.
Qed.

(** The function answers what its last method answers. *)
Lemma last_method_decides cs s s1 s2 :
  button_method cs (log EvCapture s) = (Returns false, s1) ->
  link_method cs s1 = (Returns false, s2) ->
  download_with_browser cs s = navigate_method cs s2.
Proof.
  intros H1 H2.
  destruct (download_with_browser_steps cs s) as (b1 & s1' & E1 & K).
  rewrite H1 in E1. injection E1 as <- <-.
  destruct K as (b2 & s2' & E2 & K).
  rewrite H2 in E2. injection E2 as <- <-.
  destruct K as (b3 & s3 & E3 & K). now rewrite K, E3.
Qed.

(** C6.  [download_with_browser] always returns a boolean: no exception
    comes out of it.  An exception raised in the [try] block of the first
    method is followed by the query of the second method, one raised in the
    block of the second by the query of the third, and when the third
    fails too, by an exception or not, the function returns [False]. *)
Theorem C6_capturer_never_raises (cs : capture_script) (s : machine) :
  (exists b, fst (download_with_browser cs s) = Returns b) /\
  (forall e s1,
     button_body cs (log EvCapture s) = (Raises e, s1) ->
     exists tr,
       since s1 (snd (download_with_browser cs s)) (EvQuery PdfLink :: tr)) /\
  (forall e s1 s2,
     button_method cs (log EvCapture s) = (Returns false, s1) ->
     link_body cs s1 = (Raises e, s2) ->
     exists tr,
       since s2 (snd (download_with_browser cs s)) (EvQuery EmbedPdf :: tr)) /\
  (forall e s1 s2 s3,
     button_method cs (log EvCapture s) = (Returns false, s1) ->
     link_method cs s1 = (Returns false, s2) ->
     navigate_body cs s2 = (Raises e, s3) ->
     download_with_browser cs s = (Returns false, s3)) /\
  (forall s1 s2 s3,
     button_method cs (log EvCapture s) = (Returns false, s1) ->
     link_method cs s1 = (Returns false, s2) ->
     navigate_method cs s2 = (Returns false, s3) ->
     download_with_browser cs s = (Returns false, s3)).
Proof.
  split; [apply total_download_with_browser|].
  split; [|split; [|split]].
  - intros e s1 H. apply link_follows_button.
    exact (method_absorbs _ e _ _ H).
  - intros e s1 s2 H1 H2. apply (navigate_follows_link cs s s1 s2 H1).
    exact (method_absorbs _ e _ _ H2).
  - intros e s1 s2 s3 H1 H2 H3.
    rewrite (last_method_decides cs s s1 s2 H1 H2).
    exact (method_absorbs _ e _ _ H3).
  - intros s1 s2 s3 H1 H2 H3.
    now rewrite (last_method_decides cs s s1 s2 H1 H2).
Qed.

(** On a page whose every call raises, the three methods are tried in turn
    and the function returns [False]. *)
Lemma C6_capturer_never_raises_witness :
  (exists tr,
     since (log (EvQuery SaveButton) (log EvCapture (Scenario.start None)))
           (snd (download_with_browser Scenario.all_raise (Scenario.start None)))
           (EvQuery PdfLink :: tr)) /\
  download_with_browser Scenario.all_raise (Scenario.start None)
  = (Returns false,
     log (EvQuery EmbedPdf)
       (log (EvQuery PdfLink)
          (log (EvQuery SaveButton) (log EvCapture (Scenario.start None))))).
Proof.
  destruct (C6_capturer_never_raises Scenario.all_raise (Scenario.start None))
    as (_ & H2 & _ & H4 & _).
  split.
  - apply (H2 PlaywrightError). reflexivity.
  - apply (H4 PlaywrightError
              (log (EvQuery SaveButton) (log EvCapture (Scenario.start None)))
              (log (EvQuery PdfLink)
                 (log (EvQuery SaveButton)
                    (log EvCapture (Scenario.start None)))));
      reflexivity.
Defined.

(** C7.  [download_with_browser] returns [True] only with the target file
    present and larger than 1000 bytes.  A method whose save leaves no
    file, or one of at most 1000 bytes, answers [False]: after the first
    method the second is tried, after the second the third, and after the
    third the function returns [False]. *)
Theorem C7_true_only_on_valid_file (cs : capture_script) (s : machine) :
  (fst (download_with_browser cs s) = Returns true ->
   exists size,
     pdf_file (snd (download_with_browser cs s)) = Some size /\
     (1000 < size)%Z) /\
  (valid_pdf (sv_file (cs_button_save cs)) = false ->
   exists s1 tr,
     button_method cs (log EvCapture s) = (Returns false, s1) /\
     since s1 (snd (download_with_browser cs s)) (EvQuery PdfLink :: tr)) /\
  (forall s1,
     button_method cs (log EvCapture s) = (Returns false, s1) ->
     valid_pdf (sv_file (cs_link_save cs)) = false ->
     exists s2 tr,
       link_method cs s1 = (Returns false, s2) /\
       since s2 (snd (download_with_browser cs s)) (EvQuery EmbedPdf :: tr)) /\
  (forall s1 s2,
     button_method cs (log EvCapture s) = (Returns false, s1) ->
     link_method cs s1 = (Returns false, s2) ->
     valid_pdf (sv_file (cs_tab_save cs)) = false ->
     fst (download_with_browser cs s) = Returns false).
Proof.
  split; [|split; [|split]].
  - intros Htrue.
    assert (Hv : valid_pdf (pdf_file (snd (download_with_browser cs s))) = true).
    { destruct (download_with_browser_steps cs s) as (b1 & s1 & E1 & K).
      destruct b1.
      - rewrite K. simpl.
        generalize (sound_button_method cs (log EvCapture s)). rewrite E1.
        intros H. now apply H.
      - destruct K as (b2 & s2 & E2 & K). destruct b2.
        + rewrite K. simpl.
          generalize (sound_link_method cs s1). rewrite E2.
          intros H. now apply H.
        + destruct K as (b3 & s3 & E3 & K). rewrite K in *. simpl in *.
          generalize (sound_navigate_method cs s2). rewrite E3.
          intros H. now apply H. }
    unfold valid_pdf in Hv.
    destruct (pdf_file (snd (download_with_browser cs s))) as [size|];
      [|discriminate].
    exists size. split; [reflexivity | now apply Z.ltb_lt].
  - intros Hbad.
    assert (H1 : fst (button_method cs (log EvCapture s)) = Returns false).
    { apply (method_fails _ _ _ (total_button_method cs)
               (button_method_checks_its_save cs)).
      congruence. }
    destruct (button_method cs (log EvCapture s)) as [r1 s1] eqn:E1.
    simpl in H1. subst r1. exists s1.
    destruct (link_follows_button cs s s1 E1) as (tr & Htr).
    now exists tr.
  - intros s1 E1 Hbad.
    assert (H2 : fst (link_method cs s1) = Returns false).
    { apply (method_fails _ _ _ (total_link_method cs)
               (link_method_checks_its_save cs)).
      congruence. }
    destruct (link_method cs s1) as [r2 s2] eqn:E2.
    simpl in H2. subst r2. exists s2.
    destruct (navigate_follows_link cs s s1 s2 E1 E2) as (tr & Htr).
    now exists tr.
  - intros s1 s2 E1 E2 Hbad.
    rewrite (last_method_decides cs s s1 s2 E1 E2).
    apply (method_fails _ _ _ (total_navigate_method cs)
             (navigate_method_checks_its_save cs)).
    congruence.
Qed.

(** The new tab saves 5000 bytes: [True], on a file of 5000 bytes.  The
    save button saves ten bytes: the PDF link is queried next. *)
Lemma C7_true_only_on_valid_file_witness :
  (exists size,
     pdf_file (snd (download_with_browser (Scenario.only_tab_saves 5000)
                      (Scenario.start None))) = Some size /\
     (1000 < size)%Z) /\
  (exists s1 tr,
     button_method (Scenario.button_saves 10)
                   (log EvCapture (Scenario.start None))
     = (Returns false, s1) /\
     since s1
           (snd (download_with_browser (Scenario.button_saves 10)
                   (Scenario.start None)))
           (EvQuery PdfLink :: tr)).
Proof.
  split.
  - apply (proj1 (C7_true_only_on_valid_file (Scenario.only_tab_saves 5000)
                    (Scenario.start None))).
    reflexivity.
  - apply (proj1 (proj2 (C7_true_only_on_valid_file (Scenario.button_saves 10)
                           (Scenario.start None)))).
    reflexivity.
Defined.

End CaptureClaims.

(** ** The wait loop and the mirror loop *)

Section OrchestratorFacts.

Import Hybrid.

Ltac browse :=
  repeat first
    [ apply browses_call; reflexivity
    | apply browses_modify; intros;
      first [ apply browsing_log; reflexivity
            | apply browsing_set_file
            | apply browsing_set_downloaded
            | apply browsing_set_page ]
    | apply browses_download_with_browser
    | apply browses_bind
    | apply browses_try
    | apply browses_if
    | apply browses_when
    | apply browses_ret
    | apply browses_raise
    | apply browses_answer
    | apply browses_get
    | intro ].

Lemma browses_has_content sn : browses (has_content sn).
Proof. unfold has_content. browse. Qed.

Lemma browses_poll sn : browses (poll sn).
Proof.
  unfold poll. apply browses_bind; [browse|]. intros title.
  repeat (apply browses_if; [apply browses_ret|]).
  apply browses_bind; [apply browses_has_content|]. browse.
Qed.

Lemma browses_wait_for_pdf polls : browses (wait_for_pdf polls).
Proof.
  induction polls as [|sn rest IH]; simpl; [apply browses_ret|].
  apply browses_bind; [apply browses_poll|].
  intros [| | |]; auto using browses_ret.
Qed.

Lemma browses_attempt w url : browses (attempt w url).
Proof.
  unfold attempt. apply browses_try.
  - apply browses_bind; [browse|]. intros _.
    apply browses_bind; [browse|]. intros _.
    apply browses_bind; [browse|]. intros _.
    apply browses_bind; [apply browses_wait_for_pdf|]. intros pdf_ready.
    browse.
  - browse.
Qed.

Lemma total_attempt w url : total (attempt w url).
Proof.
  unfold attempt. apply total_try. intros e.
  apply total_bind; [|intros; apply total_ret].
  apply total_try. intros e'. apply total_ret.
Qed.

Lemma opens_attempt w url : opens_with EvNewPage (attempt w url).
Proof.
  unfold attempt. apply opens_with_try.
  - apply opens_with_call. intros _.
    apply browses_bind; [browse|]. intros _.
    apply browses_bind; [browse|]. intros _.
    apply browses_bind; [apply browses_wait_for_pdf|]. intros pdf_ready.
    browse.
  - browse.
Qed.

Lemma browses_mirror_loop w doi mirrors : browses (mirror_loop w doi mirrors).
Proof.
  induction mirrors as [|m rest IH]; simpl; [apply browses_ret|].
  apply browses_bind; [apply browses_attempt|].
  intros leave. apply browses_if; [apply browses_ret | exact IH].
Qed.

Lemma total_mirror_loop w doi mirrors : total (mirror_loop w doi mirrors).
Proof.
  induction mirrors as [|m rest IH]; simpl; [apply total_ret|].
  apply total_bind; [apply total_attempt|].
  intros leave. apply total_if; [apply total_ret | exact IH].
Qed.

(** A computation that ends by reading [downloaded] returns that flag. *)
Lemma returns_flag_bind {A} (m : M machine A) (k : A -> M machine bool) :
  (forall a, returns_flag (k a)) -> returns_flag (bind m k).
Proof.
  intros Hk s b s1. unfold bind.
  destruct (m s) as [[a|e] s']; [apply Hk | discriminate].
Qed.

(** The handler of an attempt: close the page, whatever that gives, and
    return to the loop. *)
Lemma handler_returns_false (closing : M machine unit) (s : machine) :
  fst ((try_except closing (fun _ => ret tt) ;; ret false) s) = Returns false.
Proof.
  unfold bind, try_except.
  destruct (closing s) as [[[]|e] s1]; reflexivity.
Qed.

(** The mirror loop is left only with [downloaded] set: an attempt that
    leaves the flag unset, for whatever reason, returns to the loop. *)
Lemma attempt_leaves_only_downloaded w url s :
  downloaded (snd (attempt w url s)) = false ->
  fst (attempt w url s) = Returns false.
Proof.
  unfold attempt, try_except.
  match goal with |- context [match ?body s with _ => _ end] =>
    assert (Hflag : returns_flag body);
    [|destruct (body s) as [[b|e] s1] eqn:E] end.
  - do 6 (apply returns_flag_bind; intros ?).
    intros s0 b s1. unfold ret. intros H. now injection H as <- <-.
  - simpl. intros Hd. apply Hflag in E. congruence.
  - intros _. apply handler_returns_false.
Qed.

(** Mirror fallback: when the attempt on a mirror leaves [downloaded]
    unset, the loop goes on with the next mirror from the state the
    attempt left, and the first call made there opens a new page. *)
Lemma next_mirror_is_tried w doi m1 m2 rest s :
  let s1 := snd (attempt w (m1 ++ "/" ++ doi) s) in
  downloaded s1 = false ->
  mirror_loop w doi (m1 :: m2 :: rest) s = mirror_loop w doi (m2 :: rest) s1 /\
  exists tr, since s1 (snd (attempt w (m2 ++ "/" ++ doi) s1)) (EvNewPage :: tr).
Proof.
  intros s1 Hd. split.
  - apply attempt_leaves_only_downloaded in Hd.
    change (mirror_loop w doi (m1 :: m2 :: rest) s)
      with (bind (attempt w (m1 ++ "/" ++ doi))
                 (fun leave => if leave then ret tt
                               else mirror_loop w doi (m2 :: rest)) s).
    unfold bind at 1. subst s1.
    destruct (attempt w (m1 ++ "/" ++ doi) s) as [r s1]. simpl in *.
    now subst r.
  - apply opens_attempt.
Qed.

(** An attempt whose capture succeeds: the loop is left when the page
    closes; when [page.close()] raises, the handler runs instead and the
    attempt returns to the loop with [downloaded] set. *)
Lemma attempt_after_capture w url s s1 s2 :
  ps_new_page (w_browse w url) = Returns tt ->
  ps_goto (w_browse w url) = Returns tt ->
  wait_for_pdf (ps_polls (w_browse w url))
    (log (EvGoto url) (set_page true (log EvNewPage s))) = (Returns true, s1) ->
  download_with_browser (ps_capture (w_browse w url)) s1 = (Returns true, s2) ->
  match ps_close (w_browse w url) with
  | Returns _ =>
      attempt w url s
      = (Returns true, log EvClosePage (set_downloaded true s2))
  | Raises _ =>
      fst (attempt w url s) = Returns false /\
      downloaded (snd (attempt w url s)) = true
  end.
Proof.
  intros Hn Hg Hw Hc.
  destruct (ps_close (w_browse w url)) as [[]|e] eqn:Hclose.
  - unfold attempt, call, when.
    unfold try_except, bind, modify, answer, get, ret.
    rewrite Hn, Hg. cbv beta iota. rewrite Hw. cbv beta iota.
    rewrite Hc. cbv beta iota. rewrite Hclose. reflexivity.
  - assert (E : attempt w url s =
      (try_except
         (s <- get ;;
          if page s then call EvClosePage (ps_close_again (w_browse w url))
          else raise NameError)
         (fun _ => ret tt) ;;
       ret false) (log EvClosePage (set_downloaded true s2))).
    { unfold attempt, call, when. unfold try_except at 1.
      unfold bind, modify, answer, get, ret.
      rewrite Hn, Hg. cbv beta iota. rewrite Hw. cbv beta iota.
      rewrite Hc. cbv beta iota. rewrite Hclose. reflexivity. }
    rewrite E. unfold call.
    unfold bind, get, try_except, modify, answer, raise, ret. simpl.
    destruct (page s2); [|now split].
    destruct (ps_close_again (w_browse w url)) as [[]|e']; now split.
Qed.

(** So a page that fails to close after a successful capture sends the
    loop to the next mirror, [downloaded] being set already. *)
Lemma close_failure_reopens w doi m1 m2 rest s s1 s2 e :
  let url := m1 ++ "/" ++ doi in
  ps_new_page (w_browse w url) = Returns tt ->
  ps_goto (w_browse w url) = Returns tt ->
  wait_for_pdf (ps_polls (w_browse w url))
    (log (EvGoto url) (set_page true (log EvNewPage s))) = (Returns true, s1) ->
  download_with_browser (ps_capture (w_browse w url)) s1 = (Returns true, s2) ->
  ps_close (w_browse w url) = Raises e ->
  downloaded (snd (attempt w url s)) = true /\
  mirror_loop w doi (m1 :: m2 :: rest) s
  = mirror_loop w doi (m2 :: rest) (snd (attempt w url s)).
Proof.
  intros url Hn Hg Hw Hc Hclose.
  generalize (attempt_after_capture w url s s1 s2 Hn Hg Hw Hc).
  rewrite Hclose. intros [Hr Hd]. split; [exact Hd|].
  change (mirror_loop w doi (m1 :: m2 :: rest) s)
    with (bind (attempt w url)
               (fun leave => if leave then ret tt
                             else mirror_loop w doi (m2 :: rest)) s).
  unfold bind at 1.
  destruct (attempt w url s) as [r s']. simpl in *. now subst r.
Qed.

(** The ledger call that ends [process_doi]. *)
Lemma mark_downloaded_run w doi s :
  mark_downloaded w doi s =
  (w_disk w,
   set_progress
     (snd (Ledger.mark_downloaded (w_now w) (w_disk w) doi (progress s)))
     (log (EvMarkDownloaded doi) s)).
Proof.
  unfold mark_downloaded, bind, modify, on_progress. simpl.
  now rewrite mark_downloaded_eq.
Qed.

Lemma mark_failed_run w doi s :
  mark_failed w doi s =
  (w_disk w,
   set_progress
     (snd (Ledger.mark_failed (w_now w) (w_disk w) doi (progress s)))
     (log (EvMarkFailed doi) s)).
Proof.
  unfold mark_failed, bind, modify, on_progress. simpl.
  now rewrite mark_failed_eq.
Qed.


(** When every mirror has failed, the one ledger call is [mark_failed]. *)
Lemma all_mirrors_fail_marks_failed w mirrors doi s :
  valid_pdf (pdf_file s) = false ->
  downloaded (snd (mirror_loop w doi mirrors (set_downloaded false s)))
  = false ->
  exists before after,
    since s (snd (process_doi w mirrors doi s))
          (before ++ EvMarkFailed doi :: after) /\
    existsb is_mark before = false /\
    existsb is_mark after = false.
Proof.
  intros Hv Hd.
  unfold process_doi, bind at 1, file_valid, bind at 1, get, ret.
  cbv beta iota. rewrite Hv.
  unfold bind at 1, modify at 1. cbv beta iota. unfold bind at 1.
  destruct (total_mirror_loop w doi mirrors (set_downloaded false s))
    as [[] Ht].
  destruct (browses_mirror_loop w doi mirrors (set_downloaded false s))
    as (tr & Htr & Hm & _).
  destruct (mirror_loop w doi mirrors (set_downloaded false s)) as [r s1].
  simpl in Ht, Htr, Hd. subst r. unfold bind at 1. cbv beta iota.
  unfold since in Htr. simpl in Htr. rewrite Hd.
  unfold bind. rewrite mark_failed_run. exists tr.
  destruct (w_disk w) as [[]|e].
  - exists [EvLog false doi]. unfold since, call, bind, modify, answer.
    simpl. rewrite Htr, <- !app_assoc. simpl. tauto.
  - exists []. unfold since. simpl. rewrite Htr, <- !app_assoc. tauto.
Qed.

End OrchestratorFacts.

Section OrchestratorClaims.

Import Hybrid.

(** C3, as stated, fails at a target file of exactly 1000 bytes: the size
    check is strict, so the file does not count as downloaded; both mirrors
    are opened and polled, and here, as neither has the paper, the
    identifier is marked failed. *)
Lemma C3_counterexample :
  pdf_file Scenario.thousand_bytes = Some 1000%Z /\
  (1000 <= 1000)%Z /\
  process_doi Scenario.no_mirror_has_it SCIHUB_MIRRORS Scenario.doi
              Scenario.thousand_bytes
  = (Returns tt,
     mkMachine (Some 1000%Z)
       [EvNewPage; EvGoto Scenario.url1; EvTitle; EvClosePage;
        EvNewPage; EvGoto Scenario.url2; EvTitle;
        EvQuery EmbedPdf; EvQuery IframePdf; EvQuery PdfLink;
        EvQuery SaveButton; EvClosePage;
        EvMarkFailed Scenario.doi; EvLog false Scenario.doi]
       false true
       (Ledger.mkData [] [Scenario.doi] (Some "2026-01-01T00:00:00"))).
Proof.
  split; [reflexivity|]. split; [lia|]. reflexivity.
Qed.

(** C3, amended.  For every identifier whose target file already exists
    with a size strictly greater than 1000 bytes, the orchestrator makes one
    call, [mark_downloaded], and the iteration is over: no page is opened,
    nothing is polled, the capturer is not entered.  The iteration ends as
    the write of the ledger ends. *)
Theorem C3_existing_file_short_circuit (w : world) (mirrors : list string)
    (doi : string) (s : machine) (size : Z) :
  pdf_file s = Some size ->
  (1000 < size)%Z ->
  process_doi w mirrors doi s
  = (w_disk w,
     set_progress
       (snd (Ledger.mark_downloaded (w_now w) (w_disk w) doi (progress s)))
       (log (EvMarkDownloaded doi) s)) /\
  since s (snd (process_doi w mirrors doi s)) [EvMarkDownloaded doi] /\
  In doi (Ledger.downloaded (progress (snd (process_doi w mirrors doi s)))).
Proof.
  intros Hf Hs.
  assert (Hv : valid_pdf (pdf_file s) = true).
  { rewrite Hf. simpl. now apply Z.ltb_lt. }
  assert (E : process_doi w mirrors doi s = mark_downloaded w doi s).
  { unfold process_doi, bind at 1, file_valid, bind at 1, get, ret.
    cbv beta iota. now rewrite Hv. }
  rewrite E, mark_downloaded_run. split; [reflexivity|].
  split; [reflexivity|]. simpl. rewrite mark_downloaded_eq. simpl.
  destruct (Ledger.py_in doi (Ledger.downloaded (progress s))) eqn:Hin.
  - now apply py_in_In.
  - apply in_or_app. right. now left.
Qed.

Lemma C3_existing_file_short_circuit_witness :
  since (Scenario.start (Some 1001%Z))
        (snd (process_doi Scenario.no_mirror_has_it SCIHUB_MIRRORS
                Scenario.doi (Scenario.start (Some 1001%Z))))
        [EvMarkDownloaded Scenario.doi] /\
  In Scenario.doi
     (Ledger.downloaded
        (progress (snd (process_doi Scenario.no_mirror_has_it SCIHUB_MIRRORS
                          Scenario.doi (Scenario.start (Some 1001%Z)))))).
Proof.
  apply (C3_existing_file_short_circuit Scenario.no_mirror_has_it
           SCIHUB_MIRRORS Scenario.doi (Scenario.start (Some 1001%Z)) 1001%Z).
  - reflexivity.
  - lia.
Defined.

(** Without a marker in the title, a page that shows an embedded PDF is
    ready. *)
Lemma ready_without_marker (sn : snapshot) (title : string) (s : machine) :
  sn_title sn = Returns title ->
  contains "robot" (lower title) = false ->
  contains "not available" (lower title) = false ->
  sn_embed sn = Returns true ->
  poll sn s = (Returns READY, log (EvQuery EmbedPdf) (log EvTitle s)).
Proof.
  intros Ht Hr Hn He.
  unfold poll, has_content, call. unfold bind, modify, answer, ret.
  rewrite Ht, Hr, Hn, He. reflexivity.
Qed.

(** C4.  At every poll the title is read first.  When it holds [robot] in
    any letter case the poll is a CHALLENGE whatever the content is: no
    selector is queried and the loop polls again.  Otherwise, when it holds
    [not available], the poll is UNAVAILABLE, again without a query, and
    the loop ends with [pdf_ready] unset.  A page is READY only past both
    title checks. *)
Theorem C4_title_before_content (sn : snapshot) (title : string)
    (rest : list snapshot) (s : machine) :
  sn_title sn = Returns title ->
  (contains "robot" (lower title) = true ->
     poll sn s = (Returns CHALLENGE, log EvTitle s) /\
     wait_for_pdf (sn :: rest) s = wait_for_pdf rest (log EvTitle s)) /\
  (contains "robot" (lower title) = false ->
   contains "not available" (lower title) = true ->
     poll sn s = (Returns UNAVAILABLE, log EvTitle s) /\
     wait_for_pdf (sn :: rest) s = (Returns false, log EvTitle s)) /\
  (fst (poll sn s) = Returns READY ->
     contains "robot" (lower title) = false /\
     contains "not available" (lower title) = false).
Proof.
  intros Ht.
  assert (Hpoll : poll sn s =
    if contains "robot" (lower title) then (Returns CHALLENGE, log EvTitle s)
    else if contains "not available" (lower title)
         then (Returns UNAVAILABLE, log EvTitle s)
         else (content <- has_content sn ;;
               if content then ret READY else ret LOADING) (log EvTitle s)).
  { unfold poll, call. unfold bind at 1. unfold bind at 1.
    unfold modify, answer. rewrite Ht.
    destruct (contains "robot" (lower title)); [reflexivity|].
    now destruct (contains "not available" (lower title)). }
  split; [|split].
  - intros Hr. rewrite Hr in Hpoll. split; [exact Hpoll|].
    simpl. unfold bind at 1. now rewrite Hpoll.
  - intros Hr Hn. rewrite Hr, Hn in Hpoll. split; [exact Hpoll|].
    simpl. unfold bind at 1. now rewrite Hpoll.
  - rewrite Hpoll.
    destruct (contains "robot" (lower title)); [discriminate|].
    destruct (contains "not available" (lower title)); [discriminate|].
    now split.
Qed.

(** A page that shows the PDF under a challenge title is polled again, and
    the same page under a plain title is ready. *)
Lemma C4_title_before_content_witness :
  (poll (Scenario.shows_pdf "Are you a ROBOT?") (Scenario.start None)
   = (Returns CHALLENGE, log EvTitle (Scenario.start None)) /\
   wait_for_pdf [Scenario.shows_pdf "Are you a ROBOT?";
                 Scenario.shows_pdf "Sci-Hub"] (Scenario.start None)
   = wait_for_pdf [Scenario.shows_pdf "Sci-Hub"]
                  (log EvTitle (Scenario.start None))) /\
  (poll (Scenario.shows_pdf "Paper NOT Available") (Scenario.start None)
   = (Returns UNAVAILABLE, log EvTitle (Scenario.start None)) /\
   wait_for_pdf [Scenario.shows_pdf "Paper NOT Available";
                 Scenario.shows_pdf "Sci-Hub"] (Scenario.start None)
   = (Returns false, log EvTitle (Scenario.start None))) /\
  (contains "robot" (lower "Sci-Hub") = false /\
   contains "not available" (lower "Sci-Hub") = false).
Proof.
  split; [|split].
  - apply (C4_title_before_content (Scenario.shows_pdf "Are you a ROBOT?")
             "Are you a ROBOT?" [Scenario.shows_pdf "Sci-Hub"]
             (Scenario.start None)); reflexivity.
  - apply (C4_title_before_content (Scenario.shows_pdf "Paper NOT Available")
             "Paper NOT Available" [Scenario.shows_pdf "Sci-Hub"]
             (Scenario.start None)); reflexivity.
  - apply (C4_title_before_content (Scenario.shows_pdf "Sci-Hub")
             "Sci-Hub" [] (Scenario.start None)); reflexivity.
Defined.

(** C5, at a first mirror that delivers the PDF and whose page then fails
    to close.  The capture succeeds and [downloaded] is set, but the
    exception of [page.close()] skips the [break]: the handler closes the
    page and the loop goes on to the second mirror, where the capturer runs
    again and here saves ten bytes over the file of 5000.  The identifier is
    then marked downloaded. *)
Theorem C5_close_failure_skips_break :
  process_doi Scenario.close_raises SCIHUB_MIRRORS Scenario.doi
              (Scenario.start None)
  = (Returns tt,
     mkMachine (Some 10%Z)
       [EvNewPage; EvGoto Scenario.url1; EvTitle; EvQuery EmbedPdf;
        EvCapture; EvQuery SaveButton; EvClick SaveButton; EvSaveAs;
        EvClosePage; EvClosePage;
        EvNewPage; EvGoto Scenario.url2; EvTitle; EvQuery EmbedPdf;
        EvCapture; EvQuery SaveButton; EvClick SaveButton; EvSaveAs;
        EvQuery PdfLink; EvQuery EmbedPdf; EvQuery IframePdfOrSrc;
        EvClosePage;
        EvMarkDownloaded Scenario.doi; EvLog true Scenario.doi]
       true true
       (Ledger.mkData [Scenario.doi] [] (Some "2026-01-01T00:00:00"))) /\
  fst (download_with_browser (Scenario.button_saves 5000)
         (log (EvQuery EmbedPdf) (log EvTitle
            (log (EvGoto Scenario.url1) (set_page true
               (log EvNewPage (set_downloaded false (Scenario.start None))))))))
  = Returns true.
Proof. split; reflexivity. Qed.

(** With a page that closes, the same first mirror ends the loop: the
    second mirror is not opened. *)
Lemma break_when_page_closes :
  trace (snd (process_doi
                (Scenario.world_of (Scenario.ready_page 5000 (Returns tt))
                                   (Scenario.ready_page 10 (Returns tt)))
                SCIHUB_MIRRORS Scenario.doi (Scenario.start None)))
  = [EvNewPage; EvGoto Scenario.url1; EvTitle; EvQuery EmbedPdf;
     EvCapture; EvQuery SaveButton; EvClick SaveButton; EvSaveAs;
     EvClosePage;
     EvMarkDownloaded Scenario.doi; EvLog true Scenario.doi].
Proof. reflexivity. Qed.

End OrchestratorClaims.

(** ** The identifier source *)

Section SourceFacts.

Import Source.

Lemma lstrip_no_lead (s : string) : no_lead (lstrip s).
Proof.
  induction s as [|c r IH]; simpl; [exact I|].
  destruct (is_space c) eqn:E; [exact IH | exact E].
Qed.

Lemma lstrip_fixed (s : string) : no_lead s -> lstrip s = s.
Proof.
  destruct s as [|c r]; simpl; [reflexivity|]. now intros ->.
Qed.

Lemma rstrip_no_lead (s : string) : no_lead s -> no_lead (rstrip s).
Proof.
  destruct s as [|c r]; simpl; [trivial|].
  intros Hc. rewrite Hc. now destruct (rstrip r).
Qed.

Lemma rstrip_idempotent (s : string) : rstrip (rstrip s) = rstrip s.
Proof.
  induction s as [|c r IH]; simpl; [reflexivity|].
  destruct (rstrip r) as [|c' r'] eqn:E.
  - destruct (is_space c) eqn:Ec; simpl; [reflexivity | now rewrite Ec].
  - change (rstrip (String c (String c' r')) = String c (String c' r')).
    simpl in IH. simpl. destruct (rstrip r') eqn:E'.
    + destruct (is_space c') eqn:Ec'; [discriminate IH|].
      injection IH as <-. reflexivity.
    + now rewrite IH.
Qed.

Lemma strip_idempotent (s : string) : strip (strip s) = strip s.
Proof.
  unfold strip.
  rewrite (lstrip_fixed (rstrip (lstrip s))).
  - apply rstrip_idempotent.
  - apply rstrip_no_lead, lstrip_no_lead.
Qed.

(** The list so far is a prefix of the list returned. *)
Lemma extract_from_spec (rows : list cell) (acc : list string) :
  match extract_from rows acc with
  | Extracted l =>
      ~ In ShortRow rows /\
      exists more,
        l = (acc ++ more)%list /\
        forall d, In d more <->
                  (exists t, In (Cell t) rows /\ strip t = d) /\
                  valid_doi d = true
  | AttributeError => In ShortRow rows
  end.
Proof.
  revert acc. induction rows as [|row rest IH]; intros acc; simpl.
  - split; [tauto|]. exists []. split; [now rewrite app_nil_r|].
    intros d. simpl. split; [tauto|]. intros [[t [[] _]] _].
  - destruct row as [| |t]; simpl.
    + (* no column: the empty string is skipped *)
      specialize (IH acc). unfold valid_doi at 1. simpl.
      destruct (extract_from rest acc) as [l|]; [|tauto].
      destruct IH as (Hno & more & -> & Hm). split.
      * intros [H|H]; [discriminate | tauto].
      * exists more. split; [reflexivity|]. intros d. rewrite Hm. split.
        -- intros [[t [Hin Ht]] Hv]. split; [|exact Hv]. exists t. tauto.
        -- intros [[t [[Hin|Hin] Ht]] Hv]; [discriminate|].
           split; [|exact Hv]. now exists t.
    + now left.
    + destruct (valid_doi (strip t)) eqn:Hv.
      * specialize (IH (acc ++ [strip t])%list).
        destruct (extract_from rest (acc ++ [strip t])) as [l|]; [|tauto].
        destruct IH as (Hno & more & -> & Hm). split.
        -- intros [H|H]; [discriminate | tauto].
        -- exists (strip t :: more). split; [now rewrite <- app_assoc|].
           intros d. simpl. rewrite Hm. split.
           ++ intros [<- | [[t' [Hin Ht']] Hv']].
              ** split; [|exact Hv]. exists t. tauto.
              ** split; [|exact Hv']. exists t'. tauto.
           ++ intros [[t' [[Heq|Hin] Ht']] Hv'].
              ** injection Heq as ->. now left.
              ** right. split; [|exact Hv']. now exists t'.
      * specialize (IH acc).
        destruct (extract_from rest acc) as [l|]; [|tauto].
        destruct IH as (Hno & more & -> & Hm). split.
        -- intros [H|H]; [discriminate | tauto].
        -- exists more. split; [reflexivity|]. intros d. rewrite Hm. split.
           ++ intros [[t' [Hin Ht']] Hv']. split; [|exact Hv'].
              exists t'. tauto.
           ++ intros [[t' [[Heq|Hin] Ht']] Hv'].
              ** injection Heq as ->. congruence.
              ** split; [|exact Hv']. now exists t'.
Qed.

(** X1.  [extract_valid_dois] raises, with [AttributeError], exactly when
    some row is too short to have a [doi] field; a file without a [doi]
    column raises nothing. *)
Theorem X1_short_row_raises (rows : list cell) :
  extract_valid_dois rows = AttributeError <-> In ShortRow rows.
Proof.
  unfold extract_valid_dois.
  generalize (extract_from_spec rows []).
  destruct (extract_from rows []) as [l|].
  - intros [Hno _]. split; [discriminate | tauto].
  - tauto.
Qed.

(** X2.  When [extract_valid_dois] returns, an identifier is in its list iff
    it is the stripped text of the [doi] field of some row, is not empty
    and is not [no doi] in any letter case; every identifier returned is
    free of surrounding white space. *)
Theorem X2_extracted_identifiers (rows : list cell) (dois : list string) :
  extract_valid_dois rows = Extracted dois ->
  forall d,
    (In d dois <->
       (exists t, In (Cell t) rows /\ strip t = d) /\
       d <> EmptyString /\ lower d <> "no doi") /\
    (In d dois -> strip d = d).
Proof.
  unfold extract_valid_dois. intros E d.
  generalize (extract_from_spec rows []). rewrite E.
  intros (_ & more & -> & Hm). simpl.
  assert (Hv : valid_doi d = true <-> d <> EmptyString /\ lower d <> "no doi").
  { unfold valid_doi. rewrite andb_true_iff, !negb_true_iff.
    rewrite <- !not_true_iff_false, !String.eqb_eq. tauto. }
  split.
  - rewrite Hm, Hv. tauto.
  - intros Hin. apply Hm in Hin. destruct Hin as [[t [_ <-]] _].
    apply strip_idempotent.
Qed.

Lemma X2_extracted_identifiers_witness :
  (In "10.1/a"
      ["10.1/a"; "10.1/b"] <->
     (exists t, In (Cell t) [Cell "  10.1/a "; Cell "No DOI"; NoColumn;
                             Cell "10.1/b"] /\ strip t = "10.1/a") /\
     "10.1/a" <> EmptyString /\ lower "10.1/a" <> "no doi") /\
  (In "10.1/a" ["10.1/a"; "10.1/b"] -> strip "10.1/a" = "10.1/a").
Proof.
  apply (X2_extracted_identifiers
           [Cell "  10.1/a "; Cell "No DOI"; NoColumn; Cell "10.1/b"]
           ["10.1/a"; "10.1/b"]).
  reflexivity.
Defined.

Lemma forbidden_underscore : forbidden "_"%char = false.
Proof. reflexivity. Qed.

Lemma substitute_length (s : string) :
  String.length (substitute s) = String.length s.
Proof. induction s as [|c r IH]; simpl; congruence. Qed.

Lemma substitute_clean (s : string) : clean (substitute s) = true.
Proof.
  induction s as [|c r IH]; simpl; [reflexivity|]. rewrite IH.
  destruct (forbidden c) eqn:E; [reflexivity | now rewrite E].
Qed.

Lemma substitute_fixed (s : string) : clean s = true -> substitute s = s.
Proof.
  induction s as [|c r IH]; simpl; [reflexivity|].
  rewrite andb_true_iff, negb_true_iff. intros [-> Hr]. now rewrite IH.
Qed.

Lemma take_clean (n : nat) (s : string) :
  clean s = true -> clean (take n s) = true.
Proof.
  revert s. induction n as [|n IH]; intros [|c r]; simpl; try reflexivity.
  rewrite !andb_true_iff. intros [-> Hr]. split; [reflexivity | now apply IH].
Qed.

Lemma take_length (n : nat) (s : string) :
  String.length (take n s) = Nat.min n (String.length s).
Proof.
  revert s. induction n as [|n IH]; intros [|c r]; simpl; try reflexivity.
  now rewrite IH.
Qed.

Lemma take_all (n : nat) (s : string) :
  (String.length s <= n)%nat -> take n s = s.
Proof.
  revert s. induction n as [|n IH]; intros [|c r]; simpl; try reflexivity.
  - lia.
  - intros H. rewrite IH; [reflexivity | lia].
Qed.

Lemma sanitize_filename_shape (filename : string) :
  clean (sanitize_filename filename) = true /\
  String.length (sanitize_filename filename)
  = Nat.min 200 (String.length filename).
Proof.
  unfold sanitize_filename.
  destruct (200 <? String.length (substitute filename))%nat eqn:E.
  - split; [apply take_clean, substitute_clean|].
    now rewrite take_length, substitute_length.
  - apply Nat.ltb_ge in E. split; [apply substitute_clean|].
    rewrite substitute_length in *. lia.
Qed.

(** X3.  The name [sanitize_filename] returns holds none of the characters
    of its pattern and has the length of the argument, capped at 200. *)
Theorem X3_sanitized_name (filename : string) :
  clean (sanitize_filename filename) = true /\
  String.length (sanitize_filename filename)
  = Nat.min 200 (String.length filename).
Proof. apply sanitize_filename_shape. Qed.

(** X4.  [sanitize_filename] returns its argument unchanged exactly when
    the argument holds no character of the pattern and has at most 200
    characters; so sanitizing twice is sanitizing once. *)
Theorem X4_sanitize_fixed_points (filename : string) :
  (sanitize_filename filename = filename <->
     clean filename = true /\ (String.length filename <= 200)%nat) /\
  sanitize_filename (sanitize_filename filename) = sanitize_filename filename.
Proof.
  assert (Hfix : forall f, clean f = true -> (String.length f <= 200)%nat ->
                           sanitize_filename f = f).
  { intros f Hc Hl. unfold sanitize_filename.
    rewrite (substitute_fixed f Hc).
    destruct (200 <? String.length f)%nat eqn:E; [|reflexivity].
    apply Nat.ltb_lt in E. lia. }
  split.
  - split.
    + intros H. destruct (sanitize_filename_shape filename) as [Hc Hl].
      rewrite H in Hc, Hl. split; [exact Hc | lia].
    + intros [Hc Hl]. now apply Hfix.
  - destruct (sanitize_filename_shape filename) as [Hc Hl].
    apply Hfix; [exact Hc | lia].
Qed.

End SourceFacts.

(** ** The ledger, continued *)

Section LedgerMore.

Import Ledger.

Lemma perform_eq (c : call) (s : data) :
  snd (perform c s) =
  match c_method c with
  | MarkDownloaded =>
      mkData (if py_in (c_doi c) (downloaded s) then downloaded s
              else downloaded s ++ [c_doi c])
             (without_first (c_doi c) (failed s))
             (Some (c_now c))
  | MarkFailed =>
      mkData (downloaded s)
             (if negb (py_in (c_doi c) (failed s))
                 && negb (py_in (c_doi c) (downloaded s))
              then failed s ++ [c_doi c] else failed s)
             (Some (c_now c))
  end.
Proof.
  unfold perform. destruct (c_method c).
  - now rewrite mark_downloaded_eq.
  - now rewrite mark_failed_eq.
Qed.

(** A call keeps what is in the downloaded list. *)
Lemma perform_keeps_downloaded (c : call) (s : data) (d : string) :
  In d (downloaded s) -> In d (downloaded (snd (perform c s))).
Proof.
  intros H. rewrite perform_eq. destruct (c_method c); simpl; [|exact H].
  destruct (py_in (c_doi c) (downloaded s)); [exact H|].
  apply in_or_app. now left.
Qed.

(** A call keeps every identifier processed. *)
Lemma perform_keeps_processed (c : call) (s : data) (d : string) :
  is_processed d s = true -> is_processed d (snd (perform c s)) = true.
Proof.
  unfold is_processed. rewrite !orb_true_iff, !py_in_In.
  intros [H|H]; [left; now apply perform_keeps_downloaded|].
  rewrite perform_eq. destruct (c_method c); simpl.
  - destruct (String.eqb_spec (c_doi c) d) as [->|Hne].
    + left. destruct (py_in d (downloaded s)) eqn:E.
      * now apply py_in_In.
      * apply in_or_app. right. now left.
    + right. now apply without_first_other.
  - right.
    destruct (negb (py_in (c_doi c) (failed s))
              && negb (py_in (c_doi c) (downloaded s))); [|exact H].
    apply in_or_app. now left.
Qed.

(** The identifier of a call is processed once the call is over. *)
Lemma perform_processes (c : call) (s : data) :
  is_processed (c_doi c) (snd (perform c s)) = true.
Proof.
  unfold is_processed. rewrite orb_true_iff, !py_in_In, perform_eq.
  destruct (c_method c); simpl.
  - left. destruct (py_in (c_doi c) (downloaded s)) eqn:E.
    + now apply py_in_In.
    + apply in_or_app. right. now left.
  - destruct (py_in (c_doi c) (failed s)) eqn:Ef; simpl.
    + right. now apply py_in_In.
    + destruct (py_in (c_doi c) (downloaded s)) eqn:Ed; simpl.
      * left. now apply py_in_In.
      * right. apply in_or_app. right. now left.
Qed.

Lemma after_calls_keeps_downloaded (cs : list call) (s : data) (d : string) :
  In d (downloaded s) -> In d (downloaded (after_calls cs s)).
Proof.
  revert s. induction cs as [|c cs IH]; intros s H; simpl; [exact H|].
  apply IH. now apply perform_keeps_downloaded.
Qed.

Lemma after_calls_keeps_processed (cs : list call) (s : data) (d : string) :
  is_processed d s = true -> is_processed d (after_calls cs s) = true.
Proof.
  revert s. induction cs as [|c cs IH]; intros s H; simpl; [exact H|].
  apply IH. now apply perform_keeps_processed.
Qed.

(** X5.  From any ledger state, an identifier that is in the downloaded
    list stays there through every later sequence of [mark_downloaded] and
    [mark_failed] calls, on any identifiers: a download is never lost nor
    downgraded. *)
Theorem X5_downloaded_is_kept (cs : list call) (s : data) (d : string) :
  In d (downloaded s) ->
  In d (downloaded (after_calls cs s)) /\
  is_processed d (after_calls cs s) = true.
Proof.
  intros H. split; [now apply after_calls_keeps_downloaded|].
  apply after_calls_keeps_processed. unfold is_processed.
  apply orb_true_iff. left. now apply py_in_In.
Qed.

Lemma X5_downloaded_is_kept_witness :
  let s := mkData ["10.1/a"] ["10.1/b"] None in
  let cs := [mkCall MarkFailed "10.1/a" "t1" (Returns tt);
             mkCall MarkDownloaded "10.1/b" "t2" (Raises OSError)] in
  In "10.1/a" (downloaded (after_calls cs s)) /\
  is_processed "10.1/a" (after_calls cs s) = true.
Proof.
  intros s cs. apply (X5_downloaded_is_kept cs s "10.1/a").
  simpl. now left.
Defined.

(** X6.  From any ledger state, the identifier of a call is processed once
    the call is over, whatever the write of the file did, and an identifier
    that is processed stays processed through every later sequence of
    calls: nothing recorded is ever forgotten. *)
Theorem X6_processed_is_kept (c : call) (cs : list call) (s : data)
    (d : string) :
  is_processed (c_doi c) (after_calls (c :: cs) s) = true /\
  (is_processed d s = true -> is_processed d (after_calls cs s) = true).
Proof.
  split.
  - simpl. apply after_calls_keeps_processed, perform_processes.
  - apply after_calls_keeps_processed.
Qed.

Lemma X6_processed_is_kept_witness :
  let s := mkData [] ["10.1/b"; "10.1/b"] None in
  let c := mkCall MarkFailed "10.1/a" "t1" (Raises OSError) in
  let cs := [mkCall MarkDownloaded "10.1/b" "t2" (Returns tt)] in
  is_processed "10.1/a" (after_calls (c :: cs) s) = true /\
  is_processed "10.1/b" (after_calls cs s) = true.
Proof.
  intros s c cs. split.
  - apply (proj1 (X6_processed_is_kept c cs s "10.1/b")).
  - apply (proj2 (X6_processed_is_kept c cs s "10.1/b")). reflexivity.
Defined.

(** X7.  On every ledger state, [mark_failed] on a processed identifier
    changes neither list, and a second [mark_failed] on the same identifier
    never changes the lists the first one left. *)
Theorem X7_mark_failed_settles (now1 now2 : string) (disk1 disk2 : result unit)
    (d : string) (s : data) :
  (is_processed d s = true ->
     downloaded (snd (mark_failed now1 disk1 d s)) = downloaded s /\
     failed (snd (mark_failed now1 disk1 d s)) = failed s) /\
  downloaded (snd (mark_failed now2 disk2 d (snd (mark_failed now1 disk1 d s))))
  = downloaded (snd (mark_failed now1 disk1 d s)) /\
  failed (snd (mark_failed now2 disk2 d (snd (mark_failed now1 disk1 d s))))
  = failed (snd (mark_failed now1 disk1 d s)).
Proof.
  assert (Hnoop : forall now disk s0,
    is_processed d s0 = true ->
    downloaded (snd (mark_failed now disk d s0)) = downloaded s0 /\
    failed (snd (mark_failed now disk d s0)) = failed s0).
  { intros now disk s0. unfold is_processed. rewrite mark_failed_eq. simpl.
    intros H. apply orb_true_iff in H.
    destruct (py_in d (failed s0)); simpl; [now split|].
    destruct (py_in d (downloaded s0)); simpl; [now split|].
    destruct H; discriminate. }
  split; [apply Hnoop|].
  apply Hnoop.
  change (snd (mark_failed now1 disk1 d s))
    with (snd (perform (mkCall MarkFailed d now1 disk1) s)).
  apply (perform_processes (mkCall MarkFailed d now1 disk1)).
Qed.

Lemma X7_mark_failed_settles_witness :
  let s := mkData ["10.1/a"] [] None in
  downloaded (snd (mark_failed "t1" (Returns tt) "10.1/a" s)) = downloaded s /\
  failed (snd (mark_failed "t1" (Returns tt) "10.1/a" s)) = failed s.
Proof.
  intros s.
  apply (proj1 (X7_mark_failed_settles "t1" "t1" (Returns tt) (Returns tt)
                  "10.1/a" s)).
  reflexivity.
Defined.

(** X8.  On every ledger state [mark_downloaded] and [mark_failed] raise
    exactly what the write of the progress file raises (the guarded
    [remove] never raises), and the ledger in memory after the call is the
    same whether the write succeeded or not. *)
Theorem X8_only_the_write_raises (now : string) (disk disk' : result unit)
    (d : string) (s : data) :
  fst (mark_downloaded now disk d s) = disk /\
  fst (mark_failed now disk d s) = disk /\
  snd (mark_downloaded now disk d s) = snd (mark_downloaded now disk' d s) /\
  snd (mark_failed now disk d s) = snd (mark_failed now disk' d s).
Proof.
  rewrite !mark_downloaded_eq, !mark_failed_eq. now repeat split.
Qed.

(** Only the identifiers of the calls enter the lists. *)
Lemma after_calls_members (cs : list call) (s : data) (d : string) :
  In d (downloaded (after_calls cs s) ++ failed (after_calls cs s)) ->
  In d (downloaded s ++ failed s) \/ In d (map c_doi cs).
Proof.
  revert s. induction cs as [|c cs IH]; intros s H; simpl in *; [now left|].
  apply IH in H. destruct H as [H|H]; [|now right; right].
  rewrite perform_eq in H. apply in_app_or in H.
  destruct (c_method c); simpl in H.
  - destruct H as [H|H].
    + destruct (py_in (c_doi c) (downloaded s)).
      * left. apply in_or_app. now left.
      * apply in_app_or in H. destruct H as [H|[H|[]]].
        -- left. apply in_or_app. now left.
        -- right. now left.
    + left. apply in_or_app. right.
      eapply without_first_subset. exact H.
  - destruct H as [H|H].
    + left. apply in_or_app. now left.
    + destruct (negb (py_in (c_doi c) (failed s))
                && negb (py_in (c_doi c) (downloaded s))).
      * apply in_app_or in H. destruct H as [H|[H|[]]].
        -- left. apply in_or_app. now right.
        -- right. now left.
      * left. apply in_or_app. now right.
Qed.

Lemma after_calls_all_processed (cs : list call) (s : data) (d : string) :
  In d (map c_doi cs) -> is_processed d (after_calls cs s) = true.
Proof.
  revert s. induction cs as [|c cs IH]; intros s; simpl; [tauto|].
  intros [<-|H].
  - apply after_calls_keeps_processed, perform_processes.
  - now apply IH.
Qed.

(** X9.  Starting from the empty ledger, after any sequence of calls the two
    counts of [get_stats] add up to the number of distinct identifiers the
    calls named: each identifier is counted once, however often and however
    it was marked. *)
Theorem X9_stats_count_identifiers (cs : list call) :
  fst (get_stats (after_calls cs empty)) + snd (get_stats (after_calls cs empty))
  = List.length (nodup string_dec (map c_doi cs)).
Proof.
  unfold get_stats. simpl. rewrite <- length_app.
  apply Permutation_length.
  destruct (after_calls_well_formed cs empty empty_well_formed)
    as (Hd & Hf & Hx).
  apply NoDup_Permutation.
  - apply NoDup_app; [assumption | assumption |]. exact Hx.
  - apply NoDup_nodup.
  - intros d. rewrite nodup_In. split.
    + intros H. apply after_calls_members in H.
      destruct H as [H|H]; [destruct H | exact H].
    + intros H. apply (after_calls_all_processed cs empty) in H.
      unfold is_processed in H. rewrite orb_true_iff, !py_in_In in H.
      apply in_or_app. exact H.
Qed.

End LedgerMore.

(** ** Loading, continued *)

Section PersistMore.

Import Persist Saved.

Lemma set_key_downloaded k v r :
  r_downloaded (set_key k v r)
  = if String.eqb k "downloaded" then v else r_downloaded r.
Proof.
  unfold set_key. destruct (String.eqb k "downloaded"); [reflexivity|].
  destruct (String.eqb k "failed"); [reflexivity|].
  now destruct (String.eqb k "last_update").
Qed.

Lemma set_key_failed k v r :
  r_failed (set_key k v r) = if String.eqb k "failed" then v else r_failed r.
Proof.
  unfold set_key. destruct (String.eqb_spec k "downloaded") as [->|_].
  - reflexivity.
  - destruct (String.eqb k "failed"); [reflexivity|].
    now destruct (String.eqb k "last_update").
Qed.

Lemma set_key_last_update k v r :
  r_last_update (set_key k v r)
  = if String.eqb k "last_update" then v else r_last_update r.
Proof.
  unfold set_key. destruct (String.eqb_spec k "downloaded") as [->|_].
  - reflexivity.
  - destruct (String.eqb_spec k "failed") as [->|_]; [reflexivity|].
    now destruct (String.eqb k "last_update").
Qed.

(** Merging the members of an object, one after the other. *)
Lemma merge_members_eq (members : list (string * json)) (r : raw) :
  merge_members members r
  = (Returns tt,
     mkRaw (entry "downloaded" members (r_downloaded r))
           (entry "failed" members (r_failed r))
           (entry "last_update" members (r_last_update r))).
Proof.
  revert r. induction members as [|[k v] rest IH]; intros r.
  - now destruct r.
  - change (merge_members ((k, v) :: rest) r)
      with (merge_members rest (set_key k v r)).
    rewrite IH. unfold entry. simpl.
    rewrite set_key_downloaded, set_key_failed, set_key_last_update.
    destruct (lookup_last "downloaded" rest),
             (lookup_last "failed" rest),
             (lookup_last "last_update" rest);
      destruct (String.eqb k "downloaded"), (String.eqb k "failed"),
               (String.eqb k "last_update"); reflexivity.
Qed.

(** [load] keeps what [update] stored, whether the report that follows
    raises or not. *)
Lemma load_object (members : list (string * json)) (r : raw) :
  load (Present (Returns (JObj members))) r
  = (Returns tt, snd (merge_members members r)).
Proof.
  unfold load, try_except, bind, answer, get, ret, dict_update.
  rewrite merge_members_eq. simpl.
  destruct (py_len (entry "downloaded" members (r_downloaded r)));
    [|reflexivity].
  now destruct (py_len (entry "failed" members (r_failed r))).
Qed.



Lemma init_object (members : list (string * json)) :
  init (Present (Returns (JObj members)))
  = (Returns tt,
     mkRaw (entry "downloaded" members (JArr []))
           (entry "failed" members (JArr []))
           (entry "last_update" members JNull)).
Proof.
  unfold init. now rewrite load_object, merge_members_eq.
Qed.

(** X11.  When the progress file holds a JSON object, the constructor
    returns with each of the three entries set to the value the object
    gives its key (the last one if the key is repeated) and left at its
    default if the object has no such key; the values are taken as they
    are, of whatever type. *)
Theorem X11_object_entries (members : list (string * json)) :
  init (Present (Returns (JObj members)))
  = (Returns tt,
     mkRaw (entry "downloaded" members (JArr []))
           (entry "failed" members (JArr []))
           (entry "last_update" members JNull)).
Proof. apply init_object. Qed.

Lemma strings_of_map (l : list string) : strings_of (map JStr l) = Some l.
Proof.
  induction l as [|x l IH]; simpl; [reflexivity|]. now rewrite IH.
Qed.

(** X12.  A ledger that was written is read back as it was: from the object
    [save] dumps for a ledger, the constructor restores the two lists, in
    their order, and the time stamp. *)
Theorem X12_saved_ledger_is_restored (d : Ledger.data) :
  init (Present (Returns (dump d))) = (Returns tt, raw_of d) /\
  as_ledger (snd (init (Present (Returns (dump d))))) = Some d.
Proof.
  assert (E : init (Present (Returns (dump d))) = (Returns tt, raw_of d)).
  { unfold dump. rewrite init_object. reflexivity. }
  split; [exact E|]. rewrite E. unfold as_ledger, raw_of. simpl.
  rewrite !strings_of_map. destruct d as [dl fl [t|]]; reflexivity.
Qed.

End PersistMore.

(** ** Frames *)

Section FrameFacts.

Import Hybrid Session.

Context {X : Type} (p : event -> bool) (f : machine -> X).

Lemma framed_ret {A} (a : A) : framed p f (ret a).
Proof.
  intros s. split; [|reflexivity]. exists []. unfold since. simpl.
  now rewrite app_nil_r.
Qed.

Lemma framed_raise {A} (e : exn) : framed p f (@raise machine A e).
Proof.
  intros s. split; [|reflexivity]. exists []. unfold since. simpl.
  now rewrite app_nil_r.
Qed.

Lemma framed_answer {A} (r : result A) : framed p f (answer r).
Proof.
  intros s. split; [|reflexivity]. exists []. unfold since. simpl.
  now rewrite app_nil_r.
Qed.

Lemma framed_get : framed p f get.
Proof.
  intros s. split; [|reflexivity]. exists []. unfold since. simpl.
  now rewrite app_nil_r.
Qed.

Lemma framed_log (e : event) :
  p e = false -> (forall s, f (log e s) = f s) -> framed p f (modify (log e)).
Proof.
  intros He Hf s. split; [|apply Hf]. exists [e]. unfold since. simpl.
  now rewrite He.
Qed.

Lemma framed_modify (g : machine -> machine) :
  (forall s, trace (g s) = trace s) -> (forall s, f (g s) = f s) ->
  framed p f (modify g).
Proof.
  intros Hg Hf s. split; [|apply Hf]. exists []. unfold since. simpl.
  now rewrite Hg, app_nil_r.
Qed.

Lemma framed_bind {A B} (m : M machine A) (k : A -> M machine B) :
  framed p f m -> (forall a, framed p f (k a)) -> framed p f (bind m k).
Proof.
  intros Hm Hk s. unfold bind. specialize (Hm s).
  destruct (m s) as [[a|e] s1]; simpl in *; [|assumption].
  destruct Hm as [(tr1 & H1 & P1) F1].
  destruct (Hk a s1) as [(tr2 & H2 & P2) F2].
  split; [|congruence].
  exists (tr1 ++ tr2)%list. unfold since in *. split.
  - now rewrite H2, H1, app_assoc.
  - now rewrite existsb_app, P1, P2.
Qed.

Lemma framed_try {A} (m : M machine A) (h : exn -> M machine A) :
  framed p f m -> (forall e, framed p f (h e)) -> framed p f (try_except m h).
Proof.
  intros Hm Hh s. unfold try_except. specialize (Hm s).
  destruct (m s) as [[a|e] s1]; simpl in *; [assumption|].
  destruct Hm as [(tr1 & H1 & P1) F1].
  destruct (Hh e s1) as [(tr2 & H2 & P2) F2].
  split; [|congruence].
  exists (tr1 ++ tr2)%list. unfold since in *. split.
  - now rewrite H2, H1, app_assoc.
  - now rewrite existsb_app, P1, P2.
Qed.

Lemma framed_if {A} (b : bool) (m1 m2 : M machine A) :
  framed p f m1 -> framed p f m2 -> framed p f (if b then m1 else m2).
Proof. now destruct b. Qed.

Lemma framed_when (b : bool) (m : M machine unit) :
  framed p f m -> framed p f (when b m).
Proof. intros H. destruct b; [exact H | apply framed_ret]. Qed.

Lemma framed_call {A} (e : event) (r : result A) :
  p e = false -> (forall s, f (log e s) = f s) -> framed p f (call e r).
Proof.
  intros He Hf. unfold call. apply framed_bind.
  - now apply framed_log.
  - intros _. apply framed_answer.
Qed.

(** A computation whose first call is [e] and whose other calls are
    framed. *)
Lemma framed_after_call {A B} (e : event) (r : result A)
    (k : A -> M machine B) (h : exn -> M machine B) :
  (forall a, framed p f (k a)) -> (forall x, framed p f (h x)) ->
  forall s, exists tr,
    since s (snd (try_except (bind (call e r) k) h s)) (e :: tr) /\
    existsb p tr = false.
Proof.
  intros Hk Hh s.
  assert (Hrest : framed p f (try_except (bind (answer r) k) h)).
  { apply framed_try; [|exact Hh]. apply framed_bind; [|exact Hk].
    apply framed_answer. }
  destruct (Hrest (log e s)) as [(tr & Htr & Hp) _].
  exists tr. split; [|exact Hp].
  unfold since in *.
  replace (try_except (bind (call e r) k) h s)
    with (try_except (bind (answer r) k) h (log e s)).
  - rewrite Htr. simpl. now rewrite <- app_assoc.
  - unfold try_except, bind, call, modify, answer. reflexivity.
Qed.

End FrameFacts.

(** ** The wait loop, the capturer and the attempt, framed *)

Section SessionFrames.

Import Hybrid Session.

Context {X : Type} (p : event -> bool) (f : machine -> X).

Hypothesis f_log : forall e s, f (log e s) = f s.

Ltac frame Hp :=
  repeat first
    [ apply framed_call; [apply Hp; reflexivity | intros; apply f_log]
    | apply framed_log; [apply Hp; reflexivity | intros; apply f_log]
    | apply framed_bind
    | apply framed_try
    | apply framed_if
    | apply framed_when
    | apply framed_ret
    | apply framed_raise
    | apply framed_answer
    | apply framed_get
    | intro ].

Section Polling.

Hypothesis p_poll : forall e, poll_event e = true -> p e = false.

Lemma framed_has_content sn : framed p f (has_content sn).
Proof. unfold has_content. frame p_poll. Qed.

Lemma framed_poll sn : framed p f (poll sn).
Proof.
  unfold poll. apply framed_bind; [frame p_poll|]. intros title.
  repeat (apply framed_if; [apply framed_ret|]).
  apply framed_bind; [apply framed_has_content|]. frame p_poll.
Qed.

Lemma framed_wait_for_pdf polls : framed p f (wait_for_pdf polls).
Proof.
  induction polls as [|sn rest IH]; simpl; [apply framed_ret|].
  apply framed_bind; [apply framed_poll|].
  intros [| | |]; auto using framed_ret.
Qed.

End Polling.

Section Capturing.

Hypothesis p_capturer : forall e, capturer_event e = true -> p e = false.
Hypothesis f_file : forall a s, f (set_file a s) = f s.

Lemma framed_save_as a : framed p f (save_as a).
Proof.
  unfold save_as. apply framed_bind; [frame p_capturer|]. intros _.
  apply framed_bind; [|intros _; apply framed_answer].
  apply framed_modify; [reflexivity | intros; apply f_file].
Qed.

Lemma framed_file_valid : framed p f file_valid.
Proof. unfold file_valid. frame p_capturer. Qed.

Lemma framed_click_method sel found download save :
  framed p f (click_method sel found download save).
Proof.
  unfold click_method, click_body.
  apply framed_try; [|frame p_capturer].
  apply framed_bind; [frame p_capturer|]. intros element.
  apply framed_if; [|apply framed_ret].
  apply framed_bind; [frame p_capturer|]. intros _.
  apply framed_bind; [apply framed_save_as|]. intros _.
  apply framed_file_valid.
Qed.

Lemma framed_find_pdf_url cs : framed p f (find_pdf_url cs).
Proof. unfold find_pdf_url. frame p_capturer. Qed.

Lemma framed_resolve_url cs url : framed p f (resolve_url cs url).
Proof. unfold resolve_url. frame p_capturer. Qed.

Lemma framed_navigate_method cs : framed p f (navigate_method cs).
Proof.
  unfold navigate_method, navigate_body.
  apply framed_try; [|frame p_capturer].
  apply framed_bind; [apply framed_find_pdf_url|]. intros url.
  apply framed_if; [|apply framed_ret].
  apply framed_bind; [apply framed_resolve_url|]. intros target.
  apply framed_bind; [frame p_capturer|]. intros _.
  apply framed_try.
  - apply framed_bind; [frame p_capturer|]. intros _.
    apply framed_bind; [apply framed_save_as|]. intros _.
    apply framed_bind; [frame p_capturer|]. intros _.
    apply framed_file_valid.
  - frame p_capturer.
Qed.

Lemma framed_download_with_browser cs : framed p f (download_with_browser cs).
Proof.
  unfold download_with_browser.
  apply framed_bind; [frame p_capturer|]. intros _.
  apply framed_bind; [apply framed_click_method|]. intros b1.
  apply framed_if; [apply framed_ret|].
  apply framed_bind; [apply framed_click_method|]. intros b2.
  apply framed_if; [apply framed_ret|].
  apply framed_bind; [apply framed_navigate_method|]. intros b3.
  apply framed_if; apply framed_ret.
Qed.

End Capturing.

End SessionFrames.

(** ** One attempt *)

Section AttemptMore.

Import Hybrid Session.


(** What a poll finds does not depend on the machine. *)
Lemma poll_verdict (sn : snapshot) (s s' : machine) :
  fst (poll sn s) = fst (poll sn s').
Proof.
  unfold poll, has_content, call. unfold bind, modify, answer, ret.
  destruct (sn_title sn) as [title|e]; [|reflexivity].
  destruct (contains "robot" (lower title)); [reflexivity|].
  destruct (contains "not available" (lower title)); [reflexivity|].
  destruct (sn_embed sn) as [[|]|e]; try reflexivity.
  destruct (sn_iframe sn) as [[|]|e]; try reflexivity.
  destruct (sn_link sn) as [[|]|e]; try reflexivity.
  destruct (sn_button sn) as [[|]|e]; reflexivity.
Qed.

Lemma wait_verdict (polls : list snapshot) (s s' : machine) :
  fst (wait_for_pdf polls s) = fst (wait_for_pdf polls s').
Proof.
  revert s s'. induction polls as [|sn rest IH]; intros s s'; simpl;
    [reflexivity|].
  unfold bind. generalize (poll_verdict sn s s').
  destruct (poll sn s) as [r1 s1], (poll sn s') as [r2 s2]. simpl.
  intros <-. destruct r1 as [[| | |]|e]; try reflexivity; apply IH.
Qed.

Lemma bind_ext {S A B} (m : M S A) (k k' : A -> M S B) (s : S) :
  (forall a s', k a s' = k' a s') -> bind m k s = bind m k' s.
Proof.
  intros H. unfold bind. destruct (m s) as [[a|e] s1]; [apply H | reflexivity].
Qed.

Lemma skip_when {A} (m : M machine bool) (c : M machine unit)
    (k : M machine A) (s : machine) :
  fst (m s) <> Returns true ->
  bind m (fun b => bind (when b c) (fun _ => k)) s = bind m (fun _ => k) s.
Proof.
  unfold bind, when, ret.
  destruct (m s) as [[[|]|e] s1]; simpl; [congruence | reflexivity | reflexivity].
Qed.

(** An attempt whose wait does not end on a page with content is the
    attempt without its capture. *)
Lemma attempt_not_ready (w : world) (url : string) (s : machine) :
  fst (wait_for_pdf (ps_polls (w_browse w url)) s) <> Returns true ->
  attempt w url s
  = try_except
      (call EvNewPage (ps_new_page (w_browse w url)) ;;
       modify (set_page true) ;;
       call (EvGoto url) (ps_goto (w_browse w url)) ;;
       _ <- wait_for_pdf (ps_polls (w_browse w url)) ;;
       call EvClosePage (ps_close (w_browse w url)) ;;
       s <- get ;;
       ret (downloaded s))
      (fun _ =>
         try_except
           (s <- get ;;
            if page s then call EvClosePage (ps_close_again (w_browse w url))
            else raise NameError)
           (fun _ => ret tt) ;;
         ret false) s.
Proof.
  intros Hw. unfold attempt, try_except.
  match goal with |- (match ?a s with _ => _ end) = (match ?b s with _ => _ end)
    => replace (a s) with (b s); [reflexivity|] end.
  apply bind_ext. intros _ s1.
  apply bind_ext. intros _ s2.
  apply bind_ext. intros _ s3.
  symmetry. apply skip_when. now rewrite (wait_verdict _ s3 s).
Qed.

(** X14.  The capturer is entered only from a page that showed content: an
    attempt whose wait ends on an unavailable page, on the budget or on an
    exception makes no click, no save and opens no tab, and leaves the
    target file and [downloaded] as they were. *)
Theorem X14_no_capture_unless_ready (w : world) (url : string) (s : machine) :
  fst (wait_for_pdf (ps_polls (w_browse w url)) s) <> Returns true ->
  exists tr,
    since s (snd (attempt w url s)) tr /\
    existsb is_capturing tr = false /\
    pdf_file (snd (attempt w url s)) = pdf_file s /\
    downloaded (snd (attempt w url s)) = downloaded s.
Proof.
  intros Hw. rewrite (attempt_not_ready w url s Hw).
  match goal with |- context [snd (?m s)] =>
    assert (F : framed is_capturing outcome m) end.
  { apply framed_try.
    - apply framed_bind; [now apply framed_call|]. intros _.
      apply framed_bind; [now apply framed_modify|]. intros _.
      apply framed_bind; [now apply framed_call|]. intros _.
      apply framed_bind.
      + apply framed_wait_for_pdf; [reflexivity|].
        now intros [] H.
      + intros _. apply framed_bind; [now apply framed_call|]. intros _.
        apply framed_bind; [apply framed_get|]. intros s0. apply framed_ret.
    - intros e. apply framed_bind; [|intros _; apply framed_ret].
      apply framed_try; [|intros _; apply framed_ret].
      apply framed_bind; [apply framed_get|]. intros s0.
      apply framed_if; [now apply framed_call | apply framed_raise]. }
  destruct (F s) as [(tr & Htr & Hp) Hf]. exists tr.
  unfold outcome in Hf. injection Hf as Hfile Hflag. now repeat split.
Qed.

Lemma X14_no_capture_unless_ready_witness :
  exists tr,
    since (Scenario.start None)
          (snd (attempt Scenario.no_mirror_has_it Scenario.url1
                  (Scenario.start None))) tr /\
    existsb is_capturing tr = false /\
    pdf_file (snd (attempt Scenario.no_mirror_has_it Scenario.url1
                     (Scenario.start None))) = None /\
    downloaded (snd (attempt Scenario.no_mirror_has_it Scenario.url1
                       (Scenario.start None))) = false.
Proof.
  apply (X14_no_capture_unless_ready Scenario.no_mirror_has_it Scenario.url1
           (Scenario.start None)).
  vm_compute. discriminate.
Defined.

(** A poll under a title with [robot] reads the title and nothing else. *)
Lemma poll_challenged (sn : snapshot) (s : machine) :
  challenged sn -> poll sn s = (Returns CHALLENGE, log EvTitle s).
Proof.
  intros (title & Ht & Hr).
  unfold poll, call. unfold bind at 1. unfold bind at 1.
  unfold modify, answer. rewrite Ht. now rewrite Hr.
Qed.

(** X15.  While the title holds [robot] at every poll of the budget, the
    wait loop reads the title once per poll, queries no selector, and ends
    with [pdf_ready] unset: a challenge that is not cleared ends in a
    timeout, whatever the page shows behind it. *)
Theorem X15_uncleared_challenge_times_out (polls : list snapshot)
    (s : machine) :
  Forall challenged polls ->
  wait_for_pdf polls s
  = (Returns false, fold_left (fun s0 _ => log EvTitle s0) polls s).
Proof.
  intros H. revert s. induction H as [|sn rest Hsn Hrest IH]; intros s;
    simpl; [reflexivity|].
  unfold bind. rewrite (poll_challenged sn s Hsn). apply IH.
Qed.

Lemma X15_uncleared_challenge_times_out_witness :
  wait_for_pdf [Scenario.shows_pdf "I am not a robot";
                Scenario.shows_pdf "Are you a ROBOT?"] (Scenario.start None)
  = (Returns false, log EvTitle (log EvTitle (Scenario.start None))).
Proof.
  apply (X15_uncleared_challenge_times_out
           [Scenario.shows_pdf "I am not a robot";
            Scenario.shows_pdf "Are you a ROBOT?"] (Scenario.start None)).
  repeat constructor.
  - exists "I am not a robot". now split.
  - exists "Are you a ROBOT?". now split.
Defined.

End AttemptMore.

(** ** Pages and tabs *)

Section PagesMore.

Import Hybrid Session.

Lemma reaches_here {A B} (e : event) (r : result A) (k : A -> M machine B) :
  (forall a, framed nop page (k a)) -> reaches e (bind (call e r) k).
Proof.
  intros Hk s. unfold bind, call, modify, answer. simpl.
  destruct r as [a|x]; simpl.
  - destruct (Hk a (log e s)) as [(tr & Htr & _) _].
    exists (e :: tr). split; [|left; now left].
    unfold since in *. rewrite Htr. simpl. now rewrite <- app_assoc.
  - exists [e]. split; [reflexivity | left; now left].
Qed.

Lemma reaches_later {A B} (e : event) (m : M machine A)
    (k : A -> M machine B) :
  framed nop page m -> (forall a, reaches e (k a)) -> reaches e (bind m k).
Proof.
  intros Hm Hk s. unfold bind. destruct (Hm s) as [(tr1 & H1 & _) _].
  destruct (m s) as [[a|x] s1]; simpl in *.
  - destruct (Hk a s1) as (tr2 & H2 & Hin).
    exists (tr1 ++ tr2)%list. unfold since in *. split.
    + now rewrite H2, H1, app_assoc.
    + destruct Hin as [Hin|Hr]; [left | right; exact Hr].
      apply in_or_app. now right.
  - exists tr1. split; [exact H1 | right; now exists x].
Qed.

(** What an attempt does once its page is open. *)
Lemma attempt_with_page (w : world) (url : string) (s : machine) :
  ps_new_page (w_browse w url) = Returns tt ->
  attempt w url s
  = try_except
      (call (EvGoto url) (ps_goto (w_browse w url)) ;;
       pdf_ready <- wait_for_pdf (ps_polls (w_browse w url)) ;;
       when pdf_ready
            (captured <- download_with_browser (ps_capture (w_browse w url)) ;;
             when captured (modify (set_downloaded true))) ;;
       call EvClosePage (ps_close (w_browse w url)) ;;
       s <- get ;;
       ret (downloaded s))
      (fun _ =>
         try_except
           (s <- get ;;
            if page s then call EvClosePage (ps_close_again (w_browse w url))
            else raise NameError)
           (fun _ => ret tt) ;;
         ret false)
      (set_page true (log EvNewPage s)).
Proof.
  intros Hn. unfold attempt, try_except.
  unfold bind at 1. unfold call at 1. unfold bind at 1.
  unfold modify at 1, answer at 1. rewrite Hn. cbv beta iota.
  unfold bind at 1. unfold modify at 1. reflexivity.
Qed.

(** The handler of an attempt closes the page the variable is bound to. *)
Lemma handler_closes (again : result unit) (s : machine) :
  page s = true ->
  trace (snd ((try_except
                 (s0 <- get ;;
                  if page s0 then call EvClosePage again else raise NameError)
                 (fun _ => ret tt) ;;
               ret false) s))
  = (trace s ++ [EvClosePage])%list.
Proof.
  intros Hp. unfold call. unfold bind, try_except, get, modify, answer, ret.
  rewrite Hp. now destruct again as [[]|x].
Qed.

(** X16.  An attempt that got its page calls [page.close()] on it, however
    the attempt ends: after the capture, after a wait that gave nothing,
    or from the handler when a call on the page raised. *)
Theorem X16_page_is_closed (w : world) (url : string) (s : machine) :
  ps_new_page (w_browse w url) = Returns tt ->
  exists tr,
    since s (snd (attempt w url s)) (EvNewPage :: tr) /\ In EvClosePage tr.
Proof.
  intros Hn. rewrite (attempt_with_page w url s Hn).
  set (s1 := set_page true (log EvNewPage s)).
  match goal with |- context [try_except ?body ?h s1] =>
    assert (R : reaches EvClosePage body);
    [|assert (F : framed nop page body)] end.
  - apply reaches_later; [now apply framed_call|]. intros _.
    apply reaches_later.
    { apply framed_wait_for_pdf; reflexivity. }
    intros pdf_ready. apply reaches_later.
    { apply framed_when. apply framed_bind.
      - apply framed_download_with_browser; reflexivity.
      - intros captured. apply framed_when. now apply framed_modify. }
    intros _. apply reaches_here. intros _.
    apply framed_bind; [apply framed_get|]. intros s0. apply framed_ret.
  - apply framed_bind; [now apply framed_call|]. intros _.
    apply framed_bind.
    { apply framed_wait_for_pdf; reflexivity. }
    intros pdf_ready. apply framed_bind.
    { apply framed_when. apply framed_bind.
      - apply framed_download_with_browser; reflexivity.
      - intros captured. apply framed_when. now apply framed_modify. }
    intros _. apply framed_bind; [now apply framed_call|]. intros _.
    apply framed_bind; [apply framed_get|]. intros s0. apply framed_ret.
  - unfold try_except at 1.
    destruct (R s1) as (tr & Htr & Hin). destruct (F s1) as [_ Hpage].
    match goal with |- context [match ?body s1 with _ => _ end] =>
      destruct (body s1) as [[b|x] s2] end; cbv beta iota; simpl in Htr, Hin, Hpage.
    + exists tr. split.
      * unfold since in *. simpl. rewrite Htr. unfold s1. simpl.
        now rewrite <- app_assoc.
      * destruct Hin as [Hin|[x Hx]]; [exact Hin | discriminate].
    + exists (tr ++ [EvClosePage])%list. split.
      * unfold since in *. rewrite handler_closes by exact Hpage.
        rewrite Htr. unfold s1. simpl. now rewrite <- !app_assoc.
      * apply in_or_app. right. now left.
Qed.

Lemma X16_page_is_closed_witness :
  exists tr,
    since (Scenario.start None)
          (snd (attempt Scenario.close_raises Scenario.url1
                  (Scenario.start None))) (EvNewPage :: tr) /\
    In EvClosePage tr.
Proof.
  apply (X16_page_is_closed Scenario.close_raises Scenario.url1
           (Scenario.start None)).
  reflexivity.
Defined.

End PagesMore.

Section TabsMore.

Import Hybrid Session.

Ltac frame_all :=
  repeat first
    [ apply framed_call; [reflexivity | reflexivity]
    | apply framed_bind
    | apply framed_try
    | apply framed_if
    | apply framed_when
    | apply framed_ret
    | apply framed_raise
    | apply framed_answer
    | apply framed_get
    | intro ].

Lemma not_among (q : event -> bool) (e : event) (tr : list event) :
  q e = true -> existsb q tr = false -> ~ In e tr.
Proof.
  intros He Hq Hin.
  assert (H : existsb q tr = true) by (apply existsb_exists; now exists e).
  congruence.
Qed.

Lemma snd_method (body : M machine bool) (s : machine) :
  snd (try_except body (fun _ => ret false) s) = snd (body s).
Proof.
  unfold try_except, ret. now destruct (body s) as [[b|x] s1].
Qed.

(** Looking for the address opens no tab. *)
Lemma find_opens_no_tab cs : framed is_new_tab page (find_pdf_url cs).
Proof. unfold find_pdf_url. frame_all. Qed.

Lemma resolve_opens_no_tab cs url : framed is_new_tab page (resolve_url cs url).
Proof. unfold resolve_url. frame_all. Qed.

(** Once the tab is open, [new_page.close()] is called: at the end of the
    [try] block, or else by its handler. *)
Lemma tab_block_closes cs target s :
  exists tr,
    since s
      (snd (try_except
              (call (EvTabGoto target) (cs_tab_download cs) ;;
               save_as (cs_tab_save cs) ;;
               call EvTabClose (cs_tab_close cs) ;;
               file_valid)
              (fun _ =>
                 call EvTabClose (cs_tab_close_again cs) ;;
                 try_except (call EvFrameLocator (cs_frame_locator cs))
                            (fun _ => ret tt) ;;
                 ret false) s)) tr /\
    In EvTabClose tr.
Proof.
  match goal with |- context [try_except ?body ?h s] =>
    assert (R : reaches EvTabClose body) end.
  { apply reaches_later; [now apply framed_call|]. intros _.
    apply reaches_later; [apply framed_save_as; reflexivity|]. intros _.
    apply reaches_here. intros _. apply framed_file_valid; reflexivity. }
  unfold try_except at 1. destruct (R s) as (tr & Htr & Hin).
  match goal with |- context [match ?body s with _ => _ end] =>
    destruct (body s) as [[b|x] s1] end; cbv beta iota; simpl in Htr, Hin.
  - exists tr. split; [exact Htr|].
    destruct Hin as [Hin|[x Hx]]; [exact Hin | discriminate].
  - match goal with |- context [snd (?h s1)] =>
      assert (O : opens_with EvTabClose h) end.
    { apply opens_with_call. intros _.
      apply browses_bind; [|intros _; apply browses_ret].
      apply browses_try; [now apply browses_call | intros _; apply browses_ret]. }
    destruct (O s1) as (tr' & Htr').
    exists (tr ++ EvTabClose :: tr')%list. split.
    + unfold since in *. rewrite Htr', Htr. now rewrite <- app_assoc.
    + apply in_or_app. right. now left.
Qed.

(** X17.  When the third method opens its tab, it calls [new_page.close()]
    on it, whether the download came, the save worked, or any of them
    raised. *)
Theorem X17_tab_is_closed (cs : capture_script) (s : machine) :
  cs_new_tab cs = Returns tt ->
  exists tr,
    since s (snd (navigate_method cs s)) tr /\
    (In EvNewTab tr -> In EvTabClose tr).
Proof.
  intros Hn. unfold navigate_method. rewrite snd_method.
  unfold navigate_body. unfold bind at 1.
  destruct (find_opens_no_tab cs s) as [(tr1 & H1 & P1) _].
  destruct (find_pdf_url cs s) as [[url|x] s1]; simpl in H1.
  - destruct (truthy url).
    + unfold bind at 1.
      destruct (resolve_opens_no_tab cs (text url) s1) as [(tr2 & H2 & P2) _].
      destruct (resolve_url cs (text url) s1) as [[target|x] s2]; simpl in H2.
      * unfold bind at 1. unfold call at 1. unfold bind at 1.
        unfold modify at 1, answer at 1. rewrite Hn. cbv beta iota.
        destruct (tab_block_closes cs target (log EvNewTab s2))
          as (trB & HB & Hin).
        exists (tr1 ++ tr2 ++ EvNewTab :: trB)%list. split.
        -- unfold since in *. rewrite HB. simpl. rewrite H2, H1.
           now rewrite <- !app_assoc.
        -- intros _. apply in_or_app. right. apply in_or_app. right.
           now right.
      * exists (tr1 ++ tr2)%list. split.
        -- unfold since in *. simpl. rewrite H2, H1. now rewrite app_assoc.
        -- intros Hin. exfalso. revert Hin.
           apply (not_among is_new_tab); [reflexivity|].
           now rewrite existsb_app, P1, P2.
    + exists tr1. split; [exact H1|].
      intros Hin. exfalso. revert Hin. now apply (not_among is_new_tab).
  - exists tr1. split; [exact H1|].
    intros Hin. exfalso. revert Hin. now apply (not_among is_new_tab).
Qed.

Lemma X17_tab_is_closed_witness :
  exists tr,
    since (Scenario.start None)
          (snd (navigate_method (Scenario.only_tab_saves 5000)
                  (Scenario.start None))) tr /\
    (In EvNewTab tr -> In EvTabClose tr).
Proof.
  apply (X17_tab_is_closed (Scenario.only_tab_saves 5000) (Scenario.start None)).
  reflexivity.
Defined.

(** X18.  The first method that captures ends the function: when the save
    button is found, its click gives a download and the file saved passes
    the size check, [download_with_browser] returns [True] after these
    calls and no other: the link, the embed and the iframe are not even
    queried. *)
Theorem X18_first_success_ends_capture (cs : capture_script) (s : machine) :
  cs_button cs = Returns true ->
  cs_button_download cs = Returns tt ->
  sv_result (cs_button_save cs) = Returns tt ->
  valid_pdf (sv_file (cs_button_save cs)) = true ->
  download_with_browser cs s
  = (Returns true,
     set_file (sv_file (cs_button_save cs))
       (log EvSaveAs
          (log (EvClick SaveButton)
             (log (EvQuery SaveButton) (log EvCapture s))))).
Proof.
  intros Hb Hd Hs Hv.
  unfold download_with_browser, button_method, button_body, click_body,
    save_as, file_valid, call.
  unfold bind, try_except, modify, answer, get, ret.
  rewrite Hb, Hd, Hs. simpl. now rewrite Hv.
Qed.

Lemma X18_first_success_ends_capture_witness :
  download_with_browser (Scenario.button_saves 5000) (Scenario.start None)
  = (Returns true,
     set_file (Some 5000%Z)
       (log EvSaveAs
          (log (EvClick SaveButton)
             (log (EvQuery SaveButton)
                (log EvCapture (Scenario.start None)))))).
Proof.
  apply (X18_first_success_ends_capture (Scenario.button_saves 5000)
           (Scenario.start None)); reflexivity.
Defined.

End TabsMore.

(** ** The mirrors of one identifier and the loop over the identifiers *)

Section LoopMore.

Import Hybrid Session.

Ltac frame_all :=
  repeat first
    [ apply framed_call; [reflexivity | reflexivity]
    | apply framed_modify; [reflexivity | reflexivity]
    | apply framed_bind
    | apply framed_try
    | apply framed_if
    | apply framed_when
    | apply framed_ret
    | apply framed_raise
    | apply framed_answer
    | apply framed_get
    | intro ].

Lemma no_pages (tr : list event) :
  existsb is_new_page tr = false -> filter is_new_page tr = [].
Proof.
  induction tr as [|e tr IH]; simpl; [reflexivity|].
  destruct (is_new_page e); simpl; [discriminate | exact IH].
Qed.

(** An attempt opens one page. *)
Lemma attempt_one_page w url s :
  exists tr,
    since s (snd (attempt w url s)) (EvNewPage :: tr) /\
    existsb is_new_page tr = false.
Proof.
  unfold attempt. apply (framed_after_call is_new_page unit_of).
  - intros _. apply framed_bind; [frame_all|]. intros _.
    apply framed_bind; [frame_all|]. intros _.
    apply framed_bind; [apply framed_wait_for_pdf; try reflexivity|].
    { now intros [] H. }
    intros pdf_ready. apply framed_bind.
    + apply framed_when. apply framed_bind.
      * apply framed_download_with_browser; try reflexivity.
        now intros [] H.
      * frame_all.
    + frame_all.
  - frame_all.
Qed.

Lemma mirror_loop_pages w doi mirrors s :
  exists tr,
    since s (snd (mirror_loop w doi mirrors s)) tr /\
    List.length (filter is_new_page tr) <= List.length mirrors.
Proof.
  revert s. induction mirrors as [|m rest IH]; intros s.
  - exists []. unfold since. simpl. rewrite app_nil_r. split; [reflexivity | lia].
  - change (mirror_loop w doi (m :: rest) s)
      with (bind (attempt w (m ++ "/" ++ doi))
                 (fun leave => if leave then ret tt
                               else mirror_loop w doi rest) s).
    unfold bind.
    destruct (attempt_one_page w (m ++ "/" ++ doi) s) as (tr1 & H1 & P1).
    destruct (total_attempt w (m ++ "/" ++ doi) s) as [leave Hl].
    destruct (attempt w (m ++ "/" ++ doi) s) as [r s1]. simpl in *. subst r.
    destruct leave.
    + exists (EvNewPage :: tr1). split; [exact H1|].
      simpl. rewrite (no_pages tr1 P1). simpl. lia.
    + destruct (IH s1) as (tr2 & H2 & P2).
      exists ((EvNewPage :: tr1) ++ tr2)%list. split.
      * unfold since in *. now rewrite H2, H1, app_assoc.
      * rewrite filter_app, length_app. simpl.
        rewrite (no_pages tr1 P1). simpl. lia.
Qed.

(** X19.  For one identifier the orchestrator opens at most one page per
    configured mirror, and none when the target file is already there. *)
Theorem X19_one_page_per_mirror (w : world) (mirrors : list string)
    (doi : string) (s : machine) :
  exists tr,
    since s (snd (process_doi w mirrors doi s)) tr /\
    List.length (filter is_new_page tr) <= List.length mirrors /\
    (valid_pdf (pdf_file s) = true -> filter is_new_page tr = []).
Proof.
  unfold process_doi, bind at 1, file_valid, bind at 1, get, ret.
  cbv beta iota.
  destruct (valid_pdf (pdf_file s)).
  - rewrite mark_downloaded_run. exists [EvMarkDownloaded doi].
    split; [reflexivity|]. simpl. split; [lia | reflexivity].
  - unfold bind at 1, modify at 1. cbv beta iota. unfold bind at 1.
    destruct (total_mirror_loop w doi mirrors (set_downloaded false s))
      as [[] Ht].
    destruct (mirror_loop_pages w doi mirrors (set_downloaded false s))
      as (tr & Htr & Hn).
    destruct (mirror_loop w doi mirrors (set_downloaded false s)) as [r s1].
    simpl in Ht, Htr. subst r. unfold bind at 1. cbv beta iota.
    unfold since in Htr. simpl in Htr.
    assert (Hend : forall (tail : list event),
              filter is_new_page tail = [] ->
              List.length (filter is_new_page (tr ++ tail))
              <= List.length mirrors).
    { intros tail Ht'. rewrite filter_app, length_app, Ht'. simpl. lia. }
    destruct (downloaded s1).
    + unfold bind. rewrite mark_downloaded_run.
      destruct (w_disk w) as [[]|e].
      * exists (tr ++ [EvMarkDownloaded doi; EvLog true doi])%list.
        unfold since, call, bind, modify, answer. simpl.
        rewrite Htr, <- !app_assoc. simpl.
        split; [reflexivity|]. split; [now apply Hend | discriminate].
      * exists (tr ++ [EvMarkDownloaded doi])%list.
        unfold since. simpl. rewrite Htr, <- !app_assoc.
        split; [reflexivity|]. split; [now apply Hend | discriminate].
    + unfold bind. rewrite mark_failed_run.
      destruct (w_disk w) as [[]|e].
      * exists (tr ++ [EvMarkFailed doi; EvLog false doi])%list.
        unfold since, call, bind, modify, answer. simpl.
        rewrite Htr, <- !app_assoc. simpl.
        split; [reflexivity|]. split; [now apply Hend | discriminate].
      * exists (tr ++ [EvMarkFailed doi])%list.
        unfold since. simpl. rewrite Htr, <- !app_assoc.
        split; [reflexivity|]. split; [now apply Hend | discriminate].
Qed.

Lemma X19_one_page_per_mirror_witness :
  exists tr,
    since (Scenario.start (Some 5000%Z))
          (snd (process_doi Scenario.no_mirror_has_it SCIHUB_MIRRORS
                  Scenario.doi (Scenario.start (Some 5000%Z)))) tr /\
    filter is_new_page tr = [].
Proof.
  destruct (X19_one_page_per_mirror Scenario.no_mirror_has_it SCIHUB_MIRRORS
              Scenario.doi (Scenario.start (Some 5000%Z)))
    as (tr & Htr & _ & Hv).
  exists tr. split; [exact Htr | apply Hv; reflexivity].
Defined.

(** Processing one identifier is one call on the ledger for it; the call
    returned when [process_doi] did. *)
Lemma process_doi_ledger w mirrors doi s :
  exists c,
    Ledger.c_doi c = doi /\
    progress (snd (process_doi w mirrors doi s))
    = snd (Ledger.perform c (progress s)).
Proof.
  unfold process_doi, bind at 1, file_valid, bind at 1, get, ret.
  cbv beta iota.
  destruct (valid_pdf (pdf_file s)).
  - rewrite mark_downloaded_run.
    exists (Ledger.mkCall Ledger.MarkDownloaded doi (w_now w) (w_disk w)).
    split; reflexivity.
  - unfold bind at 1, modify at 1. cbv beta iota. unfold bind at 1.
    destruct (total_mirror_loop w doi mirrors (set_downloaded false s))
      as [[] Ht].
    destruct (browses_mirror_loop w doi mirrors (set_downloaded false s))
      as (tr & _ & _ & Hp).
    destruct (mirror_loop w doi mirrors (set_downloaded false s)) as [r s1].
    simpl in Ht, Hp. subst r. unfold bind at 1. cbv beta iota.
    destruct (downloaded s1).
    + exists (Ledger.mkCall Ledger.MarkDownloaded doi (w_now w) (w_disk w)).
      split; [reflexivity|].
      unfold bind. rewrite mark_downloaded_run.
      unfold Ledger.perform. simpl. rewrite Hp.
      now destruct (w_disk w) as [[]|e].
    + exists (Ledger.mkCall Ledger.MarkFailed doi (w_now w) (w_disk w)).
      split; [reflexivity|].
      unfold bind. rewrite mark_failed_run.
      unfold Ledger.perform. simpl. rewrite Hp.
      now destruct (w_disk w) as [[]|e].
Qed.

Lemma for_loop_step its i doi rest s :
  for_loop its i (doi :: rest) s
  = match process_doi (it_world (its i)) SCIHUB_MIRRORS doi
            (set_file (it_file (its i)) s) with
    | (Returns _, s1) => for_loop its (S i) rest s1
    | (Raises e, s1) => (Raises e, s1)
    end.
Proof. reflexivity. Qed.

(** The ledger after the loop is the ledger before it after one call for
    each identifier reached, in order; all were reached if the loop
    returned. *)
Lemma for_loop_ledger its i pending s :
  exists cs,
    progress (snd (for_loop its i pending s))
    = Ledger.after_calls cs (progress s) /\
    (fst (for_loop its i pending s) = Returns tt ->
     map Ledger.c_doi cs = pending).
Proof.
  revert i s. induction pending as [|doi rest IH]; intros i s.
  - exists []. now split.
  - rewrite for_loop_step.
    destruct (process_doi_ledger (it_world (its i)) SCIHUB_MIRRORS doi
                (set_file (it_file (its i)) s)) as (c & Hc & Hp).
    destruct (process_doi (it_world (its i)) SCIHUB_MIRRORS doi
                (set_file (it_file (its i)) s)) as [[[]|e] s1]; simpl in Hp.
    + destruct (IH (S i) s1) as (cs & Hcs & Hall).
      exists (c :: cs). split.
      * simpl. now rewrite Hcs, Hp.
      * intros Hr. simpl. now rewrite Hc, (Hall Hr).
    + exists [c]. split; [simpl; now rewrite Hp | discriminate].
Qed.

(** X20.  When the loop over the pending identifiers of a list returns,
    every identifier of the list is processed: computed again from the
    same list and the ledger the loop left, the pending list is empty, so
    a second run has nothing to do. *)
Theorem X20_completed_run_leaves_nothing_pending (its : nat -> iteration)
    (dois : list string) (s : machine) :
  fst (for_loop its 0 (pending_dois dois (progress s)) s) = Returns tt ->
  pending_dois dois
    (progress (snd (for_loop its 0 (pending_dois dois (progress s)) s)))
  = [].
Proof.
  intros Hr.
  destruct (for_loop_ledger its 0 (pending_dois dois (progress s)) s)
    as (cs & Hcs & Hall).
  rewrite Hcs. specialize (Hall Hr).
  unfold pending_dois at 1.
  assert (H : forall doi, In doi dois ->
            Ledger.is_processed doi (Ledger.after_calls cs (progress s))
            = true).
  { intros doi Hin.
    destruct (Ledger.is_processed doi (progress s)) eqn:E.
    - now apply after_calls_keeps_processed.
    - apply after_calls_all_processed. rewrite Hall.
      unfold pending_dois. apply filter_In. split; [exact Hin|].
      now rewrite E. }
  clear Hcs Hall Hr. induction dois as [|doi rest IH]; simpl; [reflexivity|].
  rewrite (H doi) by now left. simpl. apply IH.
  intros d Hd. apply H. now right.
Qed.

Lemma X20_completed_run_leaves_nothing_pending_witness :
  pending_dois two_dois
    (progress (snd (for_loop nothing_anywhere 0
                      (pending_dois two_dois
                         (progress (Scenario.start None)))
                      (Scenario.start None))))
  = [].
Proof.
  apply (X20_completed_run_leaves_nothing_pending nothing_anywhere two_dois
           (Scenario.start None)).
  reflexivity.
Defined.

(** X21.  However the loop over the identifiers ends, by returning or by an
    exception, it keeps the ledger well formed (no identifier twice in a
    list, none in both lists) and keeps every identifier that was in the
    downloaded list in it. *)
Theorem X21_loop_keeps_the_ledger (its : nat -> iteration) (i : nat)
    (pending : list string) (s : machine) :
  (Ledger.well_formed (progress s) ->
   Ledger.well_formed (progress (snd (for_loop its i pending s)))) /\
  (forall d, In d (Ledger.downloaded (progress s)) ->
     In d (Ledger.downloaded (progress (snd (for_loop its i pending s))))).
Proof.
  destruct (for_loop_ledger its i pending s) as (cs & Hcs & _).
  rewrite Hcs. split.
  - apply after_calls_well_formed.
  - intros d. apply after_calls_keeps_downloaded.
Qed.

Lemma X21_loop_keeps_the_ledger_witness :
  Ledger.well_formed
    (progress (snd (for_loop nothing_anywhere 0 two_dois
                      (Scenario.start None)))).
Proof.
  apply (proj1 (X21_loop_keeps_the_ledger nothing_anywhere 0 two_dois
                  (Scenario.start None))).
  apply empty_well_formed.
Defined.

End LoopMore.
